(** * peepobot: the update dispatch core

    A shallow embedding of [internal/app] (the [App] type with [New], [Run]
    and [handleUpdate]) and of [internal/handler/general] (the three
    response handlers), followed by the properties of the cooldown gate,
    the command router, the dispatch loop and the bootstrap.

    Conventions.
    - A [time.Duration] is an [int64] count of nanoseconds: a [Z] with the
      wrap-around of its arithmetic written out ([int64.wrap]).
    - An instant ([time.Time]) is a [Z], nanoseconds on one clock.  Each
      clock reading the code makes is an explicit input ([Clock]).
    - Goroutines started with [go] are recorded as [GoCall] values, in the
      order the dispatcher starts them; their bodies run elsewhere.
    - A nil pointer is [None]; dereferencing it is the outcome [Panicked]. *)

From Stdlib Require Import ZArith Bool List Lia.
From Stdlib Require Import Floats Uint63.
From stdpp Require Import gmap strings pretty list.

Local Open Scope Z_scope.

(* ===================================================================== *)
(** ** Machine integers and time                                          *)
(* ===================================================================== *)

Module int64.

Definition min : Z := - 2 ^ 63.
Definition max : Z := 2 ^ 63 - 1.

(** The value an [int64] holds after an operation whose exact result
    is [z]. *)
Definition wrap (z : Z) : Z := (z + 2 ^ 63) mod 2 ^ 64 - 2 ^ 63.

Definition sub (a b : Z) : Z := wrap (a - b).

Definition InRange (z : Z) : Prop := min <= z <= max.

End int64.

Module time.

(** [time.Time], as nanoseconds on a single clock. *)
Definition Time := Z.
(** [time.Duration]: an [int64] of nanoseconds. *)
Definition Duration := Z.

Definition Nanosecond : Duration := 1.
Definition Second : Duration := 1000000000.
Definition Minute : Duration := 60 * Second.

(** [t.Sub(u)]: the difference, clamped to the range of a [Duration]. *)
Definition Sub (t u : Time) : Duration :=
  if t - u <? int64.min then int64.min
  else if int64.max <? t - u then int64.max
  else t - u.

(** [time.Since(t)] with the clock reading [now]. *)
Definition Since (now t : Time) : Duration := Sub now t.

(** [t.Add(d)]. *)
Definition Add (t : Time) (d : Duration) : Time := t + d.

(** [float64(n)] for an integer of at most 63 bits in magnitude. *)
Definition float64_of_Z (n : Z) : float :=
  if n <? 0 then PrimFloat.opp (PrimFloat.of_uint63 (Uint63.of_Z (- n)))
  else PrimFloat.of_uint63 (Uint63.of_Z n).

(** [d.Seconds()]:
    [sec := d / Second; nsec := d % Second;
     return float64(sec) + float64(nsec)/1e9]. *)
Definition Seconds (d : Duration) : float :=
  let sec := Z.quot d Second in
  let nsec := Z.rem d Second in
  PrimFloat.add (float64_of_Z sec)
                (PrimFloat.div (float64_of_Z nsec) (float64_of_Z 1000000000)).

End time.

(* ===================================================================== *)
(** ** fmt                                                                *)
(* ===================================================================== *)

Module fmt.

(** [fmt.Sprint] of an [int64]: its decimal digits, with a leading
    minus sign when negative. *)
Definition Sprint (n : Z) : string := pretty n.

(** The integer nearest to [n * 2^e], ties going to the even one. *)
Definition round_half_even (n e : Z) : Z :=
  if 0 <=? e then n * 2 ^ e
  else
    let d := 2 ^ (- e) in
    let q := n / d in
    let r := n mod d in
    if 2 * r <? d then q
    else if d <? 2 * r then q + 1
    else if Z.even q then q else q + 1.

(** The verb [%.1f]: the decimal with one digit after the point that is
    nearest to the exact value of the [float64]. *)
Definition verb_1f (f : float) : string :=
  match Prim2SF f with
  | S754_zero s => (if s then "-" else "") +:+ "0.0"
  | S754_infinity s => if s then "-Inf" else "+Inf"
  | S754_nan => "NaN"
  | S754_finite s m e =>
      let tenths := round_half_even (Z.pos m * 10) e in
      (if s then "-" else "") +:+ pretty (tenths / 10) +:+ "." +:+
      pretty (tenths mod 10)
  end.

End fmt.

(* ===================================================================== *)
(** ** github.com/patrickmn/go-cache, as [App.lastUsage] uses it           *)
(* ===================================================================== *)

Module cache.

(** [cache.Item]: the stored object (here always a [time.Time]) and the
    instant it expires at, [0] for never. *)
Record Item : Type := { Object : time.Time; Expiration : Z }.

Record Cache : Type := {
  defaultExpiration : time.Duration;
  items : gmap string Item
}.

Definition DefaultExpiration : time.Duration := 0.

(** [cache.New(de, ci)]: an empty cache; a zero default means no
    expiry.  The cleanup interval [ci] only paces [DeleteExpired]. *)
Definition New (de ci : time.Duration) : Cache :=
  {| defaultExpiration := if de =? 0 then -1 else de; items := ∅ |}.

(** [c.Get(k)] with the clock reading [now]: the object, unless the key
    is absent or its item has expired. *)
Definition Get (c : Cache) (k : string) (now : time.Time) : option time.Time :=
  match items c !! k with
  | None => None
  | Some it =>
      if (0 <? Expiration it) && (Expiration it <? now) then None
      else Some (Object it)
  end.

(** [c.Set(k, x, d)] with the clock reading [now]. *)
Definition Set_ (c : Cache) (k : string) (x : time.Time) (d : time.Duration)
    (now : time.Time) : Cache :=
  let d := if d =? DefaultExpiration then defaultExpiration c else d in
  let e := if 0 <? d then time.Add now d else 0 in
  {| defaultExpiration := defaultExpiration c;
     items := <[k := {| Object := x; Expiration := e |}]> (items c) |}.

(** [c.DeleteExpired()], what the janitor runs every cleanup interval. *)
Definition DeleteExpired (c : Cache) (now : time.Time) : Cache :=
  {| defaultExpiration := defaultExpiration c;
     items := filter (λ kv, ¬ (0 < Expiration kv.2 ∧ Expiration kv.2 < now))
                     (items c) |}.

End cache.

(* ===================================================================== *)
(** ** Collaborators: configuration, transport, storage                   *)
(* ===================================================================== *)

(** What [err.Error()] (and the verb [%v]) prints of a Go [error]. *)
Definition error := string.

Module config.

(** The fields of [config.Config] the two packages read. *)
Record Config : Type := {
  ApiKey : string;
  IsDebug : bool;
  CommandCooldown : time.Duration
}.

End config.

Module tgbotapi.

Record Chat : Type := { Chat_ID : Z }.

(** A [tgbotapi.Message].  [Message_Chat] is a pointer, [None] when nil.
    [Message_IsCommand] and [Message_Command] hold what the methods
    [IsCommand()] and [Command()] return on this message. *)
Record Message : Type := {
  Message_Chat : option Chat;
  Message_Text : string;
  Message_IsCommand : bool;
  Message_Command : string
}.

(** A [tgbotapi.Update]; [Update_Message] is a pointer, [None] when the
    update carries no message (an edited message, a callback query,
    a channel post, ...). *)
Record Update : Type := {
  Update_UpdateID : Z;
  Update_Message : option Message
}.

(** [tgbotapi.NewMessage(chatID, text)]. *)
Record MessageConfig : Type := { ChatID : Z; Text : string }.
Definition NewMessage (chatID : Z) (text : string) : MessageConfig :=
  {| ChatID := chatID; Text := text |}.

(** [tgbotapi.NewUpdate(offset)] with its [Timeout] field. *)
Record UpdateConfig : Type := { Offset : Z; Timeout : Z }.
Definition NewUpdate (offset : Z) : UpdateConfig :=
  {| Offset := offset; Timeout := 0 |}.

(** The state of a [*tgbotapi.BotAPI] the sources touch: the token it was
    made with, its [Debug] flag, and whether its update feed is running
    ([GetUpdatesChan] starts it, [StopReceivingUpdates] stops it). *)
Record BotAPI : Type := { Token : string; Debug : bool; receiving : bool }.

End tgbotapi.

Module database.

(** Modelled from the spec: the subscription record of the Subscription
    Store (spec, data model); package [database] and the repositories
    over it are declared outside the sources. *)
Record Subscription : Type := { active : bool; createdAt : time.Time }.

(** Modelled from the spec: [database.DB] is declared outside the
    sources; it is the storage resource holding at most one subscription
    per chat, released by [Close]. *)
Record DB : Type := { closed : bool; subscriptions : gmap Z Subscription }.

Definition Close (db : DB) : DB :=
  {| closed := true; subscriptions := subscriptions db |}.

End database.

(* ===================================================================== *)
(** ** internal/handler/general                                           *)
(* ===================================================================== *)

Module general.

Import config tgbotapi.

Record Handler : Type := { cfg : Config; bot : BotAPI }.

Definition New (cfg : Config) (bot : BotAPI) : Handler :=
  {| cfg := cfg; bot := bot |}.

(** A handler body: it returns, calls [bot.Send] and goes on with the
    error the call gave back ([None] for nil), or writes a line with
    [log.Printf] and goes on. *)
Inductive Prog (A : Type) : Type :=
| Return (a : A)
| Send (b : BotAPI) (c : MessageConfig) (k : option error → Prog A)
| Printf (line : string) (k : Prog A).
Arguments Return {A} a.
Arguments Send {A} b c k.
Arguments Printf {A} line k.

Fixpoint bind {A B : Type} (p : Prog A) (f : A → Prog B) : Prog B :=
  match p with
  | Return a => f a
  | Send b c k => Send b c (λ r, bind (k r) f)
  | Printf line k => Printf line (bind k f)
  end.

Definition send (b : BotAPI) (c : MessageConfig) : Prog (option error) :=
  Send b c Return.
Definition printf (line : string) : Prog unit := Printf line (Return tt).

Notation "'let*' x ':=' p 'in' q" := (bind p (λ x, q))
  (at level 10, x name, p at level 100, q at level 200).

Definition MessageResponse (h : Handler) (chatID : Z) (message : string)
    : Prog unit :=
  let* err := send (bot h) (NewMessage chatID message) in
  match err with
  | Some e => printf ("Error sending message: " +:+ e)
  | None => Return tt
  end.

Definition StartResponse (h : Handler) (chatID : Z) : Prog unit :=
  let msgText := "Welcome to peepobot. Now you can use any available command." in
  let* err := send (bot h) (NewMessage chatID msgText) in
  match err with
  | Some e => printf ("Error sending message: " +:+ e)
  | None => Return tt
  end.

(** The line feed of the Go literal. *)
Definition LF : string := String (Ascii.ascii_of_nat 10) EmptyString.

Definition HelpResponse (h : Handler) (chatID : Z) : Prog unit :=
  let msgText := "Command list help:" +:+ LF +:+
    "/peepo - Get random picture;" +:+ LF +:+
    "/sub - Subscribe to receive pictures periodically;" +:+ LF +:+
    "/sub_info - Get info about current subscription;" +:+ LF +:+
    "/unsub - Drop current subscription;" +:+ LF +:+
    "/help - Get this list." in
  let* err := send (bot h) (NewMessage chatID msgText) in
  match err with
  | Some e => printf ("Error sending message: " +:+ e)
  | None => Return tt
  end.

(** What a handler body did, in order. *)
Inductive Step : Type :=
| Sent (b : BotAPI) (c : MessageConfig) (result : option error)
| Logged (line : string).

(** Running a body against a transport: [transport] answers each [Send]
    from its own state [t] (the network, the platform). *)
Section Exec.
Context {T : Type} (transport : T → BotAPI → MessageConfig → T * option error).

Fixpoint exec {A : Type} (p : Prog A) (t : T) : A * T * list Step :=
  match p with
  | Return a => (a, t, [])
  | Send b c k =>
      let '(t', r) := transport t b c in
      let '(a, t'', steps) := exec (k r) t' in
      (a, t'', Sent b c r :: steps)
  | Printf line k =>
      let '(a, t', steps) := exec k t in
      (a, t', Logged line :: steps)
  end.
End Exec.

End general.

(* ===================================================================== *)
(** ** internal/app                                                       *)
(* ===================================================================== *)

Module app.

Import config tgbotapi.

(** [App].  The field [handlers] holds pointers to this same [cfg] and
    [bot] (and to the services over [db]); see [handlers_General]. *)
Record App : Type := {
  cfg : Config;
  db : database.DB;
  bot : BotAPI;
  lastUsage : cache.Cache
}.

(** [a.handlers.General]: [general.New] over the configuration and the
    bot of the application. *)
Definition handlers_General (a : App) : general.Handler :=
  general.New (cfg a) (bot a).

Definition with_lastUsage (a : App) (c : cache.Cache) : App :=
  {| cfg := cfg a; db := db a; bot := bot a; lastUsage := c |}.

(** The method calls [handleUpdate] starts with [go]. *)
Inductive GoCall : Type :=
| General_MessageResponse (chatID : Z) (message : string)
| General_StartResponse (chatID : Z)
| General_HelpResponse (chatID : Z)
| Image_GetImage (m : Message)
| Image_CreateSubscription (m : Message)
| Image_DeleteSubscription (m : Message)
| Image_GetSubscription (m : Message).

(** The body of a started call, for the handlers of package [general];
    the image handlers are declared outside the sources. *)
Definition body (a : App) (g : GoCall) : option (general.Prog unit) :=
  match g with
  | General_MessageResponse chatID message =>
      Some (general.MessageResponse (handlers_General a) chatID message)
  | General_StartResponse chatID =>
      Some (general.StartResponse (handlers_General a) chatID)
  | General_HelpResponse chatID =>
      Some (general.HelpResponse (handlers_General a) chatID)
  | _ => None
  end.

(** The clock readings of one call of [handleUpdate], in the order the
    code makes them: inside [lastUsage.Get], in [time.Since], the
    [time.Now()] passed to [lastUsage.Set], and inside [lastUsage.Set]. *)
Record Clock : Type := {
  tGet : time.Time;
  tSince : time.Time;
  tNow : time.Time;
  tSet : time.Time
}.

(** A call during which the clock does not advance. *)
Definition at_instant (t : time.Time) : Clock :=
  {| tGet := t; tSince := t; tNow := t; tSet := t |}.

Inductive Outcome : Type :=
| Panicked
| Returned (a : App) (started : list GoCall).

(** [update.Message.Chat.ID]: both pointers are followed. *)
Definition Message_Chat_ID (update : Update) : option Z :=
  m ← Update_Message update; c ← Message_Chat m; Some (Chat_ID c).

(** [fmt.Sprintf("Command on cooldown for %.1f sec", waitTime.Seconds())]. *)
Definition cooldownText (waitTime : time.Duration) : string :=
  "Command on cooldown for " +:+ fmt.verb_1f (time.Seconds waitTime) +:+ " sec".

(** The guard of the first [return]: [Some waitTime] when [lastUsage]
    has a time for [key] and
    [waitTime := a.cfg.CommandCooldown - time.Since(lastTime)] is
    positive. *)
Definition cooldownWait (a : App) (key : string) (k : Clock)
    : option time.Duration :=
  match cache.Get (lastUsage a) key (tGet k) with
  | Some lastTime =>
      let waitTime :=
        int64.sub (CommandCooldown (cfg a)) (time.Since (tSince k) lastTime) in
      if 0 <? waitTime then Some waitTime else None
  | None => None
  end.

(** The [switch update.Message.Command()]. *)
Definition route (m : Message) (chatID : Z) : GoCall :=
  let command := Message_Command m in
  if String.eqb command "start" then General_StartResponse chatID
  else if String.eqb command "peepo" then Image_GetImage m
  else if String.eqb command "sub" then Image_CreateSubscription m
  else if String.eqb command "unsub" then Image_DeleteSubscription m
  else if String.eqb command "sub_info" then Image_GetSubscription m
  else if String.eqb command "help" then General_HelpResponse chatID
  else General_MessageResponse chatID "Unknown command".

Definition handleUpdate (a : App) (update : Update) (k : Clock) : Outcome :=
  match Message_Chat_ID update with
  | None => Panicked
  | Some chatID =>
      match cooldownWait a (fmt.Sprint chatID) k with
      | Some waitTime =>
          let msgText := cooldownText waitTime in
          Returned a [General_MessageResponse chatID msgText]
      | None =>
          let a :=
            with_lastUsage a
              (cache.Set_ (lastUsage a) (fmt.Sprint chatID) (tNow k)
                          cache.DefaultExpiration (tSet k)) in
          match Update_Message update with
          | None => Returned a []
          | Some m =>
              if negb (Message_IsCommand m) then
                let msgText := "I can only handle listed commands in this chat!" in
                Returned a [General_MessageResponse chatID msgText]
              else Returned a [route m chatID]
          end
      end
  end.

(** The signals [Run] asks for: [os.Interrupt] and [syscall.SIGTERM]. *)
Inductive OsSignal : Type := Interrupt | SIGTERM.

(** What the dispatch loop does to the outside, in order. *)
Inductive Effect : Type :=
| GetUpdatesChan (u : UpdateConfig)
| Notify (signals : list OsSignal)
| Go (call : GoCall)
| Println (line : string)
| StopReceivingUpdates
| Close.

(** What the [select] of the loop receives: an update from
    [updatesChan], handled with the clock readings [k], or a signal
    from [c]. *)
Inductive Event : Type :=
| Incoming (update : Update) (k : Clock)
| Signal (s : OsSignal).

Inductive Exit : Type :=
| Crashed (trace : list Effect)
| Stopped (a : App) (trace : list Effect)
| Waiting (a : App) (trace : list Effect).

Definition stop (a : App) : App :=
  {| cfg := cfg a;
     db := database.Close (db a);
     bot := {| Token := Token (bot a); Debug := Debug (bot a);
               receiving := false |};
     lastUsage := lastUsage a |}.

Definition start (a : App) : App :=
  {| cfg := cfg a;
     db := db a;
     bot := {| Token := Token (bot a); Debug := Debug (bot a);
               receiving := true |};
     lastUsage := lastUsage a |}.

(** The [for { select { ... } }] of [Run], over the events received;
    [Waiting] when both channels are silent. *)
Fixpoint loop (a : App) (events : list Event) (trace : list Effect) : Exit :=
  match events with
  | [] => Waiting a trace
  | Incoming update k :: events =>
      match handleUpdate a update k with
      | Panicked => Crashed trace
      | Returned a started => loop a events (trace ++ map Go started)
      end
  | Signal _ :: _ =>
      Stopped (stop a)
              (trace ++ [Println "Stopping bot..."; StopReceivingUpdates;
                         Close; Println "Bot gracefully stopped!"])
  end.

Definition Run (a : App) (events : list Event) : Exit :=
  let u := NewUpdate 0 in
  let u := {| Offset := Offset u; Timeout := 60 |} in
  loop (start a) events [GetUpdatesChan u; Notify [Interrupt; SIGTERM]].

(** How a start-up step ends: [log.Fatalf] writes its line and exits
    the process with status 1, or the step gives its result. *)
Inductive Boot (A : Type) : Type :=
| Fatalf (line : string)
| Built (a : A).
Arguments Fatalf {A} line.
Arguments Built {A} a.

(** What the process does after a start-up step: [and_then] runs [next]
    on the result, and nothing after a [Fatalf]. *)
Definition and_then {A B : Type} (s : Boot A) (next : A → Boot B) : Boot B :=
  match s with
  | Fatalf line => Fatalf line
  | Built a => next a
  end.

Section New.
(** [tgbotapi.NewBotAPI] and [database.New]: the object or the error. *)
Variable NewBotAPI : string → BotAPI + error.
Variable database_New : Config → database.DB + error.

Definition New (cfg : Config) : Boot App :=
  match NewBotAPI (ApiKey cfg) with
  | inr err => Fatalf ("Error creating bot: " +:+ err)
  | inl bot =>
      let bot := {| Token := Token bot; Debug := IsDebug cfg;
                    receiving := receiving bot |} in
      match database_New cfg with
      | inr err => Fatalf ("Error connecting to database: " +:+ err)
      | inl db =>
          let lastUsage := cache.New (CommandCooldown cfg) (5 * time.Minute) in
          Built {| cfg := cfg; bot := bot; db := db; lastUsage := lastUsage |}
      end
  end.
End New.

End app.

(* ===================================================================== *)
(** ** Vocabulary of the properties                                       *)
(* ===================================================================== *)

Import config tgbotapi app.

(** The cooldown an application runs with. *)
Definition cooldown (a : App) : time.Duration := CommandCooldown (cfg a).

(** [lastUsage] expires its items as the cache [New] builds does. *)
Definition wired (a : App) : Prop :=
  cache.defaultExpiration (lastUsage a) =
  cache.defaultExpiration (cache.New (cooldown a) (5 * time.Minute)).

(** The clock never runs backwards: from the instant [t] on, every
    reading of the calls [ks], taken in order, is at or after the one
    before it. *)
Fixpoint ticking (t : time.Time) (ks : list Clock) : Prop :=
  match ks with
  | [] => True
  | k :: ks =>
      t <= tGet k ∧ tGet k <= tSince k ∧ tSince k <= tNow k ∧ tNow k <= tSet k ∧
      ticking (tSet k) ks
  end.

(** The clock readings of the updates among [events]. *)
Definition event_clocks (events : list Event) : list Clock :=
  omap (λ e, match e with Incoming _ k => Some k | Signal _ => None end) events.

(** The command tokens the router knows. *)
Definition commands : list string :=
  ["start"; "help"; "peepo"; "sub"; "unsub"; "sub_info"].

(** The messages a handler body handed to [bot.Send]. *)
Definition sends (steps : list general.Step) : list MessageConfig :=
  omap (λ s, match s with general.Sent _ c _ => Some c | general.Logged _ => None end)
       steps.

(** The lines a handler body logged. *)
Definition logged (steps : list general.Step) : list string :=
  omap (λ s, match s with general.Logged l => Some l | general.Sent _ _ _ => None end)
       steps.

(** A chat's update: a message of the given form from the chat. *)
Definition message_from (chatID : Z) (text : string) (isCommand : bool)
    (command : string) : Update :=
  {| Update_UpdateID := 0;
     Update_Message :=
       Some {| Message_Chat := Some {| Chat_ID := chatID |};
               Message_Text := text;
               Message_IsCommand := isCommand;
               Message_Command := command |} |}.

(** An update without a message. *)
Definition no_message : Update :=
  {| Update_UpdateID := 0; Update_Message := None |}.

(** A freshly built application with a cooldown of [cd]. *)
Definition newly_built (cd : time.Duration) : App :=
  {| cfg := {| ApiKey := "token"; IsDebug := false; CommandCooldown := cd |};
     db := {| database.closed := false; database.subscriptions := ∅ |};
     bot := {| Token := "token"; Debug := false; receiving := false |};
     lastUsage := cache.New cd (5 * time.Minute) |}.

(** The state [handleUpdate] leaves when it lets an update of the chat
    through. *)
Definition served (a : App) (chatID : Z) (k : Clock) : App :=
  with_lastUsage a
    (cache.Set_ (lastUsage a) (fmt.Sprint chatID) (tNow k)
                cache.DefaultExpiration (tSet k)).

(** No recorded time is later than [t]. *)
Definition recorded_before (a : App) (t : time.Time) : Prop :=
  ∀ key it, cache.items (lastUsage a) !! key = Some it → cache.Object it <= t.

(** The chat a started call answers: the chat id it is given, or the
    chat of the message it is given. *)
Definition target (g : GoCall) : option Z :=
  match g with
  | General_MessageResponse chatID _ => Some chatID
  | General_StartResponse chatID => Some chatID
  | General_HelpResponse chatID => Some chatID
  | Image_GetImage m => c ← Message_Chat m; Some (Chat_ID c)
  | Image_CreateSubscription m => c ← Message_Chat m; Some (Chat_ID c)
  | Image_DeleteSubscription m => c ← Message_Chat m; Some (Chat_ID c)
  | Image_GetSubscription m => c ← Message_Chat m; Some (Chat_ID c)
  end.

(** The chat an event comes from; a signal comes from none. *)
Definition chat_of (e : Event) : option Z :=
  match e with
  | Incoming update _ => Message_Chat_ID update
  | Signal _ => None
  end.

(** The calls the loop started, in order. *)
Definition started_calls (trace : list Effect) : list GoCall :=
  omap (λ e, match e with Go g => Some g | _ => None end) trace.

(** Two applications that an update of the chat cannot tell apart: the
    same configuration, the same default expiry, the same item for the
    chat. *)
Definition agree (chatID : Z) (a b : App) : Prop :=
  cfg a = cfg b ∧
  cache.defaultExpiration (lastUsage a) = cache.defaultExpiration (lastUsage b) ∧
  cache.items (lastUsage a) !! fmt.Sprint chatID =
    cache.items (lastUsage b) !! fmt.Sprint chatID.

(** The first word of a line: its characters up to the first space
    (character 32). *)
Fixpoint first_word (s : string) : string :=
  match s with
  | EmptyString => EmptyString
  | String c rest =>
      if Ascii.eqb c (Ascii.ascii_of_nat 32) then EmptyString else String c (first_word rest)
  end.

(** The lines of a text, split at line feeds. *)
Fixpoint lines_of (s : string) : list string :=
  match s with
  | EmptyString => [EmptyString]
  | String c rest =>
      if Ascii.eqb c (Ascii.ascii_of_nat 10) then EmptyString :: lines_of rest
      else match lines_of rest with
           | [] => [String c EmptyString]
           | l :: ls => String c l :: ls
           end
  end.

(** The commands a text lists: the word after the slash (character 47)
    of each line that starts with one. *)
Definition listed_commands (text : string) : list string :=
  omap (λ l, match l with
             | String c rest =>
                 if Ascii.eqb c (Ascii.ascii_of_nat 47) then Some (first_word rest) else None
             | EmptyString => None
             end) (lines_of text).

(** What the loop does on a signal, in order. *)
Definition shutdown : list Effect :=
  [Println "Stopping bot..."; StopReceivingUpdates; Close;
   Println "Bot gracefully stopped!"].

(** The steps of a response: the message is handed to the transport
    once, and the error, if the transport gave one, is logged. *)
Definition replied (h : general.Handler) (chatID : Z) (text : string)
    (result : option error) : list general.Step :=
  general.Sent (general.bot h) (NewMessage chatID text) result ::
  match result with
  | Some e => [general.Logged ("Error sending message: " +:+ e)]
  | None => []
  end.

(** The texts of the start and help responses. *)
Definition welcome_text : string :=
  "Welcome to peepobot. Now you can use any available command.".

Definition help_text : string :=
  "Command list help:" +:+ general.LF +:+
  "/peepo - Get random picture;" +:+ general.LF +:+
  "/sub - Subscribe to receive pictures periodically;" +:+ general.LF +:+
  "/sub_info - Get info about current subscription;" +:+ general.LF +:+
  "/unsub - Drop current subscription;" +:+ general.LF +:+
  "/help - Get this list.".

(** A transport that refuses every message with the error [e], and
    counts the attempts. *)
Definition refusing (e : error) (attempts : nat) (b : BotAPI) (c : MessageConfig)
    : nat * option error :=
  (S attempts, Some e).

(** Start-up collaborators that succeed, and ones that fail. *)
Definition bot_ok (token : string) : BotAPI + error :=
  inl {| Token := token; Debug := false; receiving := false |}.
Definition bot_unauthorized (token : string) : BotAPI + error :=
  inr "Unauthorized".
Definition db_ok (c : Config) : database.DB + error :=
  inl {| database.closed := false; database.subscriptions := ∅ |}.
Definition db_refused (c : Config) : database.DB + error :=
  inr "connection refused".

(* ===================================================================== *)
(** ** Arithmetic of durations                                            *)
(* ===================================================================== *)

Lemma wrap_in_range (z : Z) : int64.InRange z → int64.wrap z = z.
Proof.
  unfold int64.InRange, int64.wrap, int64.min, int64.max. intros Hz.
  rewrite Z.mod_small; lia.
Qed.


Lemma Since_range (now t : time.Time) : int64.InRange (time.Since now t).
Proof.
  unfold time.Since, time.Sub, int64.InRange.
  destruct (Z.ltb_spec (now - t) int64.min).
  - unfold int64.min, int64.max. lia.
  - destruct (Z.ltb_spec int64.max (now - t)); [unfold int64.min, int64.max|]; lia.
Qed.

(** Elapsed time of a past instant is not negative. *)
Lemma Since_past (now t : time.Time) : t <= now → 0 <= time.Since now t.
Proof.
  intros Hle. unfold time.Since, time.Sub.
  destruct (Z.ltb_spec (now - t) int64.min); [unfold int64.min in *; lia|].
  destruct (Z.ltb_spec int64.max (now - t)); [unfold int64.max|]; lia.
Qed.

(** [waitTime := cooldown - elapsed] does not wrap when the cooldown is
    a non-negative duration and the elapsed time is not negative. *)
Lemma waitTime_exact (cd elapsed : time.Duration) :
  0 <= cd <= int64.max → 0 <= elapsed → int64.InRange elapsed →
  int64.sub cd elapsed = cd - elapsed.
Proof.
  intros Hcd He Hr. apply wrap_in_range.
  unfold int64.InRange, int64.min, int64.max in *. lia.
Qed.

(* ===================================================================== *)
(** ** The cache                                                          *)
(* ===================================================================== *)

Lemma Get_Set_same (c : cache.Cache) (key : string) (x now : time.Time) :
  cache.Get (cache.Set_ c key x cache.DefaultExpiration now) key now = Some x.
Proof.
  unfold cache.Get, cache.Set_, time.Add. cbn [cache.items].
  rewrite lookup_insert_eq. cbn [cache.Expiration cache.Object].
  rewrite Z.eqb_refl.
  destruct (Z.ltb_spec 0 (cache.defaultExpiration c)) as [Hpos|Hnon].
  - rewrite (proj2 (Z.ltb_ge (now + cache.defaultExpiration c) now)) by lia.
    by rewrite andb_false_r.
  - reflexivity.
Qed.

Lemma items_Set_other (c : cache.Cache) (key key' : string) (x : time.Time)
    (d : time.Duration) (now : time.Time) :
  key ≠ key' →
  cache.items (cache.Set_ c key x d now) !! key' = cache.items c !! key'.
Proof. intros Hne. unfold cache.Set_. cbn. by rewrite lookup_insert_ne. Qed.

Lemma Sprint_inj (n m : Z) : fmt.Sprint n = fmt.Sprint m → n = m.
Proof. unfold fmt.Sprint. apply (inj pretty). Qed.

(** The janitor's sweep at [now] is invisible to every later [Get]. *)
Lemma Get_DeleteExpired (c : cache.Cache) (key : string) (now t : time.Time) :
  now <= t →
  cache.Get (cache.DeleteExpired c now) key t = cache.Get c key t.
Proof.
  intros Hle. unfold cache.Get, cache.DeleteExpired. cbn [cache.items].
  match goal with |- context [filter ?P ?m !! key] => set (swept := filter P m) end.
  destruct (cache.items c !! key) as [it|] eqn:Hit.
  - destruct (decide (0 < cache.Expiration it ∧ cache.Expiration it < now))
      as [Hexp|Hlive].
    + assert (swept !! key = None) as ->.
      { apply map_lookup_filter_None. right. intros it' Hit'.
        rewrite Hit in Hit'. injection Hit' as <-. cbn. tauto. }
      destruct (Z.ltb_spec 0 (cache.Expiration it)); [|lia].
      destruct (Z.ltb_spec (cache.Expiration it) t); [reflexivity|lia].
    + assert (swept !! key = Some it) as ->; [|reflexivity].
      apply map_lookup_filter_Some. split; [exact Hit|exact Hlive].
  - assert (swept !! key = None) as ->; [|reflexivity].
    apply map_lookup_filter_None. by left.
Qed.

(* ===================================================================== *)
(** ** The cooldown gate                                                  *)
(* ===================================================================== *)

Lemma Message_Chat_ID_Some (update : Update) (chatID : Z) :
  Message_Chat_ID update = Some chatID ↔
  ∃ m, Update_Message update = Some m ∧
       Message_Chat m = Some {| Chat_ID := chatID |}.
Proof.
  unfold Message_Chat_ID. split.
  - destruct (Update_Message update) as [m|]; [|discriminate]. cbn.
    destruct (Message_Chat m) as [[c]|] eqn:Hc; [|discriminate]. cbn.
    intros [= <-]. exists m. by rewrite Hc.
  - intros (m & -> & Hc). cbn. by rewrite Hc.
Qed.

(** A denied update: one cooldown notice is started, the state is the
    one before. *)
Lemma handleUpdate_denied (a : App) (update : Update) (chatID : Z) (k : Clock)
    (w : time.Duration) :
  Message_Chat_ID update = Some chatID →
  cooldownWait a (fmt.Sprint chatID) k = Some w →
  handleUpdate a update k =
    Returned a [General_MessageResponse chatID (cooldownText w)].
Proof. intros Hid Hw. unfold handleUpdate. by rewrite Hid, Hw. Qed.

(** An update let through: the time is written first, then the message
    is routed. *)
Lemma handleUpdate_admitted (a : App) (update : Update) (m : Message)
    (chatID : Z) (k : Clock) :
  Update_Message update = Some m →
  Message_Chat m = Some {| Chat_ID := chatID |} →
  cooldownWait a (fmt.Sprint chatID) k = None →
  handleUpdate a update k =
    Returned (served a chatID k)
      [if Message_IsCommand m then route m chatID
       else General_MessageResponse chatID
              "I can only handle listed commands in this chat!"].
Proof.
  intros Hm Hc Hw. unfold handleUpdate.
  rewrite (proj2 (Message_Chat_ID_Some update chatID)) by eauto.
  rewrite Hw, Hm. by destruct (Message_IsCommand m).
Qed.

(** The guard, read off the cache: the wait is the cooldown less the
    elapsed time, and the update is held back when it is positive. *)
Lemma cooldownWait_found (a : App) (key : string) (k : Clock) (T : time.Time) :
  0 <= cooldown a <= int64.max →
  cache.Get (lastUsage a) key (tGet k) = Some T →
  T <= tSince k →
  cooldownWait a key k =
    if 0 <? cooldown a - time.Since (tSince k) T
    then Some (cooldown a - time.Since (tSince k) T) else None.
Proof.
  intros Hcd Hget Hpast. unfold cooldownWait. rewrite Hget.
  fold (cooldown a).
  rewrite waitTime_exact; auto using Since_past, Since_range.
Qed.

Lemma cooldownWait_absent (a : App) (key : string) (k : Clock) :
  cache.Get (lastUsage a) key (tGet k) = None → cooldownWait a key k = None.
Proof. intros Hget. unfold cooldownWait. by rewrite Hget. Qed.


Lemma served_cfg (a : App) (chatID : Z) (k : Clock) :
  cfg (served a chatID k) = cfg a.
Proof. reflexivity. Qed.

Lemma served_wired (a : App) (chatID : Z) (k : Clock) :
  wired a → wired (served a chatID k).
Proof. intros Hw. exact Hw. Qed.







(** C2.  A denied cooldown check leaves the chat's last-served time as it
    was: when the guard holds an update of chat [chatID] back,
    [handleUpdate] returns with [lastUsage] unchanged, so the item of
    the chat and what [Get] reads of it at any time are the ones from
    before the update. *)
Theorem denied_keeps_last_served (a : App) (update : Update) (chatID : Z)
    (k : Clock) (w : time.Duration) :
  Message_Chat_ID update = Some chatID →
  cooldownWait a (fmt.Sprint chatID) k = Some w →
  ∃ a' started,
    handleUpdate a update k = Returned a' started ∧
    lastUsage a' = lastUsage a ∧
    cache.items (lastUsage a') !! fmt.Sprint chatID =
      cache.items (lastUsage a) !! fmt.Sprint chatID ∧
    ∀ t, cache.Get (lastUsage a') (fmt.Sprint chatID) t =
         cache.Get (lastUsage a) (fmt.Sprint chatID) t.
Proof.
  intros Hid Hwait. exists a. eexists.
  split; [by apply handleUpdate_denied|]. auto.
Qed.

(** Chat 7, served at [t = 0] with a cooldown of 5 s and held back at
    [t = 2], still has [t = 0] as its last-served time. *)
Lemma denied_keeps_last_served_witness :
  let a1 := served (newly_built (5 * time.Second)) 7 (at_instant 0) in
  ∃ a' started,
    handleUpdate a1 (message_from 7 "/peepo" true "peepo")
                 (at_instant (2 * time.Second)) = Returned a' started ∧
    cache.Get (lastUsage a') (fmt.Sprint 7) (2 * time.Second) = Some 0.
Proof.
  intros a1.
  destruct (denied_keeps_last_served a1 (message_from 7 "/peepo" true "peepo") 7
              (at_instant (2 * time.Second)) (3 * time.Second))
    as (a' & started & Hrun & _ & _ & Hget).
  - reflexivity.
  - by vm_compute.
  - exists a', started. split; [exact Hrun|]. rewrite Hget. by vm_compute.
Defined.

(** What the body of a [MessageResponse] call does on any transport: one
    [Send] of the text to the chat. *)
Lemma MessageResponse_sends {T : Type}
    (transport : T → BotAPI → MessageConfig → T * option error) (t : T)
    (h : general.Handler) (chatID : Z) (message : string) :
  sends (general.exec transport (general.MessageResponse h chatID message) t).2 =
    [NewMessage chatID message].
Proof.
  unfold general.MessageResponse, general.send. cbn.
  destruct (transport t (general.bot h) (NewMessage chatID message)) as [t' [e|]];
    reflexivity.
Qed.



(** An application [New] returns runs the gate it was configured with. *)
Lemma New_wired (NewBotAPI : string → BotAPI + error)
    (database_New : Config → database.DB + error) (c : Config) (a : App) :
  New NewBotAPI database_New c = Built a →
  wired a ∧ cooldown a = CommandCooldown c ∧ cache.items (lastUsage a) = ∅.
Proof.
  unfold New. destruct (NewBotAPI (ApiKey c)); [|discriminate].
  destruct (database_New c); [|discriminate]. by intros [= <-].
Qed.

(** *** The states the program reaches

    The hypotheses of the gate's contract hold of every state reached
    from an application [New] returns, on a clock that does not run
    backwards. *)

Lemma recorded_before_mono (a : App) (t t' : time.Time) :
  recorded_before a t → t <= t' → recorded_before a t'.
Proof. intros Hrec Hle key it Hit. specialize (Hrec key it Hit). lia. Qed.

Lemma handleUpdate_invariant (a a' : App) (update : Update) (k : Clock)
    (started : list GoCall) (t : time.Time) :
  handleUpdate a update k = Returned a' started →
  wired a → recorded_before a t → ticking t [k] →
  wired a' ∧ cfg a' = cfg a ∧ recorded_before a' (tSet k) ∧ length started = 1%nat.
Proof.
  intros Hrun Hw Hrec (H1 & H2 & H3 & H4 & _). unfold handleUpdate in Hrun.
  destruct (Message_Chat_ID update) as [c|] eqn:Hid; [|discriminate].
  destruct (cooldownWait a (fmt.Sprint c) k).
  - injection Hrun as <- <-. repeat split; auto.
    apply (recorded_before_mono a t); [exact Hrec|lia].
  - apply Message_Chat_ID_Some in Hid as (m & Hm & _). rewrite Hm in Hrun.
    assert (a' = served a c k ∧ length started = 1%nat) as [-> Hlen]
      by (destruct (negb (Message_IsCommand m)); by injection Hrun as <- <-).
    repeat split; auto.
    intros key it. unfold served, with_lastUsage, cache.Set_. cbn.
    destruct (decide (fmt.Sprint c = key)) as [<-|Hne].
    + rewrite lookup_insert_eq. intros [= <-]. cbn. lia.
    + rewrite lookup_insert_ne by done. intros Hit.
      specialize (Hrec key it Hit). lia.
Qed.

Lemma loop_invariant (events : list Event) :
  ∀ (a a' : App) (trace trace' : list Effect) (t : time.Time) (k' : Clock),
  loop a events trace = Waiting a' trace' →
  wired a → recorded_before a t →
  ticking t (event_clocks events ++ [k']) →
  wired a' ∧ cfg a' = cfg a ∧ recorded_before a' (tGet k').
Proof.
  induction events as [|[update k|s] events IH];
    intros a a' trace trace' t k' Hloop Hw Hrec Htick; cbn in Hloop.
  - injection Hloop as <- _. cbn in Htick. repeat split; auto.
    apply (recorded_before_mono a t); [exact Hrec|lia].
  - destruct (handleUpdate a update k) as [|a1 started] eqn:Hstep; [discriminate|].
    cbn in Htick. destruct Htick as (H1 & H2 & H3 & H4 & Hrest).
    destruct (handleUpdate_invariant a a1 update k started t Hstep Hw Hrec)
      as (Hw1 & Hcfg1 & Hrec1 & _); [cbn; lia|].
    destruct (IH a1 a' _ _ (tSet k) k' Hloop Hw1 Hrec1 Hrest) as (? & ? & ?).
    repeat split; auto. congruence.
  - discriminate.
Qed.

(** From start-up on: after any updates handled on a clock that does
    not run backwards, the application is wired as [New] built it, runs
    the configured cooldown, and has no recorded time later than the
    next reading. *)
Lemma reachable_gate_hypotheses (NewBotAPI : string → BotAPI + error)
    (database_New : Config → database.DB + error) (c : Config)
    (a a' : App) (events : list Event) (trace : list Effect)
    (t : time.Time) (k' : Clock) (key : string) (T : time.Time) :
  New NewBotAPI database_New c = Built a →
  Run a events = Waiting a' trace →
  ticking t (event_clocks events ++ [k']) →
  wired a' ∧ cooldown a' = CommandCooldown c ∧
  (cache.Get (lastUsage a') key (tGet k') = Some T → T <= tSince k').
Proof.
  intros Hnew Hrun Htick.
  destruct (New_wired NewBotAPI database_New c a Hnew) as (Hw & Hcd & Hempty).
  unfold Run in Hrun.
  destruct (loop_invariant events (start a) a' _ _ t k' Hrun) as (Hw' & Hcfg & Hrec).
  - exact Hw.
  - intros key' it. cbn. rewrite Hempty. by rewrite lookup_empty.
  - exact Htick.
  - split; [exact Hw'|]. split; [unfold cooldown in *; by rewrite Hcfg|].
    unfold cache.Get. destruct (cache.items (lastUsage a') !! key) as [it|] eqn:Hit;
      [|discriminate].
    destruct (_ && _); [discriminate|]. intros [= <-].
    specialize (Hrec key it Hit).
    assert (tGet k' <= tSince k'); [|lia].
    clear -Htick. revert t Htick.
    induction (event_clocks events) as [|k0 ks IHks]; intros t Htick; cbn in Htick.
    + lia.
    + destruct Htick as (_ & _ & _ & _ & Hrest). eauto.
Qed.

(* ===================================================================== *)
(** ** The router                                                         *)
(* ===================================================================== *)

(** C3, as stated, fails: a message that is not a command and passes the
    gate does change state.  With a cooldown of 5 s and an empty cache,
    the text "hello" of chat 7 at [t = 0] gets the "commands only"
    notice, and the chat, which had no last-served time, has [t = 0]
    recorded afterwards: [lastUsage] is not what it was. *)
Lemma non_command_notice_counterexample :
  let a := newly_built (5 * time.Second) in
  let update := message_from 7 "hello" false "" in
  cooldownWait a (fmt.Sprint 7) (at_instant 0) = None ∧
  cache.Get (lastUsage a) (fmt.Sprint 7) 0 = None ∧
  ∃ a',
    handleUpdate a update (at_instant 0) =
      Returned a' [General_MessageResponse 7
                     "I can only handle listed commands in this chat!"] ∧
    cache.Get (lastUsage a') (fmt.Sprint 7) 0 = Some 0 ∧
    lastUsage a' ≠ lastUsage a ∧
    handleUpdate a update (at_instant 0) ≠
      Returned a [General_MessageResponse 7
                    "I can only handle listed commands in this chat!"].
Proof.
  intros a update.
  assert (cache.Get (lastUsage a) (fmt.Sprint 7) 0 = None) as Hbefore
    by (by vm_compute).
  assert (cache.Get (lastUsage (served a 7 (at_instant 0))) (fmt.Sprint 7) 0 =
            Some 0) as Hafter by (by vm_compute).
  split; [by vm_compute|]. split; [exact Hbefore|].
  exists (served a 7 (at_instant 0)).
  split; [reflexivity|]. split; [exact Hafter|]. split.
  - intros Heq. rewrite Heq, Hbefore in Hafter. discriminate.
  - intros Heq.
    assert (served a 7 (at_instant 0) = a) as Hsame by (by injection Heq).
    rewrite Hsame, Hbefore in Hafter. discriminate.
Qed.

(** C3, amended.  An update that passes the cooldown gate and whose
    message is not a command starts exactly one call, the "commands only"
    notice to its chat, whose body hands that one message to the
    transport, and then stops.  The configuration, the bot and the
    storage with its subscriptions are unchanged, and so are the
    last-served times of all other chats; the chat's own last-served time
    is set to the current time. *)
Theorem non_command_notice (a : App) (update : Update) (m : Message)
    (chatID : Z) (k : Clock) :
  Update_Message update = Some m →
  Message_Chat m = Some {| Chat_ID := chatID |} →
  cooldownWait a (fmt.Sprint chatID) k = None →
  Message_IsCommand m = false →
  let notice := "I can only handle listed commands in this chat!" in
  ∃ a',
    handleUpdate a update k = Returned a' [General_MessageResponse chatID notice] ∧
    cfg a' = cfg a ∧ bot a' = bot a ∧ db a' = db a ∧
    (∀ chatID', chatID' ≠ chatID →
       cache.items (lastUsage a') !! fmt.Sprint chatID' =
       cache.items (lastUsage a) !! fmt.Sprint chatID') ∧
    cache.Get (lastUsage a') (fmt.Sprint chatID) (tSet k) = Some (tNow k) ∧
    ∃ p, body a' (General_MessageResponse chatID notice) = Some p ∧
         ∀ (T : Type) (transport : T → BotAPI → MessageConfig → T * option error)
           (t : T),
           sends (general.exec transport p t).2 = [NewMessage chatID notice].
Proof.
  intros Hm Hc Hwait Hcmd notice. exists (served a chatID k).
  split.
  { rewrite (handleUpdate_admitted a update m chatID k Hm Hc Hwait).
    by rewrite Hcmd. }
  repeat (split; [reflexivity|]). split; [|split].
  - intros chatID' Hne. unfold served, with_lastUsage. cbn [lastUsage].
    apply items_Set_other. intros Heq. apply Hne. symmetry.
    by apply Sprint_inj.
  - apply Get_Set_same.
  - eexists. split; [reflexivity|]. intros T transport t.
    apply MessageResponse_sends.
Qed.

(** "hello" from chat 7 on a fresh application: the notice, and the
    chat's last-served time set. *)
Lemma non_command_notice_witness :
  ∃ a',
    handleUpdate (newly_built (5 * time.Second)) (message_from 7 "hello" false "")
                 (at_instant 0) =
      Returned a' [General_MessageResponse 7
                     "I can only handle listed commands in this chat!"] ∧
    cache.Get (lastUsage a') (fmt.Sprint 7) 0 = Some 0.
Proof.
  destruct (non_command_notice (newly_built (5 * time.Second))
              (message_from 7 "hello" false "") _ 7 (at_instant 0)
              eq_refl eq_refl)
    as (a' & Hrun & _ & _ & _ & _ & Hget & _).
  - by vm_compute.
  - reflexivity.
  - exists a'. split; [exact Hrun|exact Hget].
Defined.

(** C4 (what the code does).  An update without a message is not dropped:
    [handleUpdate] follows [update.Message] for the chat id before it
    tests the pointer, and panics; the test for nil further down is never
    reached with a nil message.  In the loop of [Run] the panic ends the
    process, with nothing the loop had still to do done. *)
Theorem no_message_panics (a : App) (id : Z) (k : Clock) (events : list Event)
    (trace : list Effect) :
  handleUpdate a {| Update_UpdateID := id; Update_Message := None |} k = Panicked ∧
  loop a (Incoming {| Update_UpdateID := id; Update_Message := None |} k :: events)
       trace = Crashed trace.
Proof. split; reflexivity. Qed.

Lemma route_unknown (m : Message) (chatID : Z) :
  Message_Command m ∉ commands →
  route m chatID = General_MessageResponse chatID "Unknown command".
Proof.
  unfold commands, route. intros Hnot.
  repeat (apply not_elem_of_cons in Hnot as [?%String.eqb_neq Hnot]).
  repeat match goal with H : (_ =? _)%string = false |- _ => rewrite H; clear H end.
  reflexivity.
Qed.

(** C6.  An update let through that is a command starts exactly one
    call, chosen by the command token, compared as written:
    [start], [help], [peepo], [sub], [unsub] and [sub_info] start the
    start, help, image, subscribe, unsubscribe and subscription-info
    handlers; any other token starts the "Unknown command" notice to the
    chat. *)
Theorem router_dispatch (a : App) (update : Update) (m : Message) (chatID : Z)
    (k : Clock) :
  Update_Message update = Some m →
  Message_Chat m = Some {| Chat_ID := chatID |} →
  cooldownWait a (fmt.Sprint chatID) k = None →
  Message_IsCommand m = true →
  ∃ call,
    handleUpdate a update k = Returned (served a chatID k) [call] ∧
    (Message_Command m = "start" → call = General_StartResponse chatID) ∧
    (Message_Command m = "help" → call = General_HelpResponse chatID) ∧
    (Message_Command m = "peepo" → call = Image_GetImage m) ∧
    (Message_Command m = "sub" → call = Image_CreateSubscription m) ∧
    (Message_Command m = "unsub" → call = Image_DeleteSubscription m) ∧
    (Message_Command m = "sub_info" → call = Image_GetSubscription m) ∧
    (Message_Command m ∉ commands →
       call = General_MessageResponse chatID "Unknown command").
Proof.
  intros Hm Hc Hwait Hcmd. exists (route m chatID). split.
  { rewrite (handleUpdate_admitted a update m chatID k Hm Hc Hwait).
    by rewrite Hcmd. }
  repeat split; try (intros Htok; unfold route; rewrite Htok; reflexivity).
  apply route_unknown.
Qed.

(** Tokens are compared as written: [/sub_info] reaches the
    subscription-info handler, [/Start] is an unknown command. *)
Lemma router_dispatch_witness :
  let a := newly_built (5 * time.Second) in
  let info := message_from 7 "/sub_info" true "sub_info" in
  (∃ m, Update_Message info = Some m ∧
        handleUpdate a info (at_instant 0) =
          Returned (served a 7 (at_instant 0)) [Image_GetSubscription m]) ∧
  handleUpdate a (message_from 7 "/Start" true "Start") (at_instant 0) =
    Returned (served a 7 (at_instant 0))
      [General_MessageResponse 7 "Unknown command"].
Proof.
  intros a info. split.
  - destruct (router_dispatch a info _ 7 (at_instant 0) eq_refl eq_refl)
      as (call & Hrun & _ & _ & _ & _ & _ & Hinfo & _).
    + by vm_compute.
    + reflexivity.
    + eexists. split; [reflexivity|]. rewrite Hrun. by rewrite (Hinfo eq_refl).
  - destruct (router_dispatch a (message_from 7 "/Start" true "Start") _ 7
                (at_instant 0) eq_refl eq_refl)
      as (call & Hrun & _ & _ & _ & _ & _ & _ & Hother).
    + by vm_compute.
    + reflexivity.
    + rewrite Hrun. rewrite Hother; [reflexivity|].
      unfold commands. cbn. intros Hin.
      repeat (apply elem_of_cons in Hin as [Heq|Hin]; [discriminate Heq|]).
      by apply elem_of_nil in Hin.
Defined.



(* ===================================================================== *)
(** ** The dispatch loop                                                  *)
(* ===================================================================== *)

(** A signal after updates the loop has handled: the loop stops there. *)
Lemma loop_signal (before : list Event) :
  ∀ (a a1 : App) (trace0 trace : list Effect) (s : OsSignal) (after : list Event),
  loop a before trace0 = Waiting a1 trace →
  loop a (before ++ Signal s :: after) trace0 = Stopped (stop a1) (trace ++ shutdown).
Proof.
  induction before as [|[update k|s'] before IH];
    intros a a1 trace0 trace s after Hloop; cbn in *.
  - by injection Hloop as <- <-.
  - destruct (handleUpdate a update k) as [|a' started]; [discriminate|]. eauto.
  - discriminate.
Qed.

(** The loop stops only on a signal. *)
Lemma loop_stopped (events : list Event) :
  ∀ (a a' : App) (trace0 trace' : list Effect),
  loop a events trace0 = Stopped a' trace' →
  ∃ before s after a1 trace,
    events = before ++ Signal s :: after ∧
    loop a before trace0 = Waiting a1 trace ∧
    a' = stop a1 ∧ trace' = trace ++ shutdown.
Proof.
  induction events as [|[update k|s] events IH];
    intros a a' trace0 trace' Hloop; cbn in Hloop.
  - discriminate.
  - destruct (handleUpdate a update k) as [|a1 started] eqn:Hstep; [discriminate|].
    destruct (IH _ _ _ _ Hloop) as (before & s & after & a2 & trace & -> & Hb & -> & ->).
    exists (Incoming update k :: before), s, after, a2, trace.
    cbn. rewrite Hstep. auto.
  - injection Hloop as <- <-. exists [], s, events, a, trace0. auto.
Qed.

(** C8.  On a shutdown signal ([os.Interrupt] or [SIGTERM]) received
    after updates the loop has handled, [Run] stops receiving updates,
    closes the database and only then returns: its last steps are the
    line "Stopping bot...", [StopReceivingUpdates], [Close], and the line
    "Bot gracefully stopped!"; the bot no longer receives, the database
    is closed, and no event after the signal is handled.  Conversely
    [Run] returns only on this path. *)
Theorem signal_stops_and_releases (a : App) (events : list Event) :
  (∀ (before after : list Event) (s : OsSignal) (a1 : App) (trace : list Effect),
     events = before ++ Signal s :: after →
     Run a before = Waiting a1 trace →
     Run a events =
       Stopped (stop a1)
         (trace ++ [Println "Stopping bot..."; StopReceivingUpdates; Close;
                    Println "Bot gracefully stopped!"]) ∧
     receiving (bot (stop a1)) = false ∧
     database.closed (db (stop a1)) = true ∧
     database.subscriptions (db (stop a1)) = database.subscriptions (db a1)) ∧
  (∀ (a' : App) (trace' : list Effect),
     Run a events = Stopped a' trace' →
     ∃ before s after a1 trace,
       events = before ++ Signal s :: after ∧
       Run a before = Waiting a1 trace ∧
       a' = stop a1 ∧
       trace' = trace ++ [Println "Stopping bot..."; StopReceivingUpdates; Close;
                          Println "Bot gracefully stopped!"]).
Proof.
  split.
  - intros before after s a1 trace -> Hrun. unfold Run in *.
    split; [|by auto]. by apply loop_signal.
  - intros a' trace' Hrun. unfold Run in *. by apply loop_stopped.
Qed.

(** One [/start], then SIGTERM, then a late update: the command is
    handled, the release steps are the last ones, the late update is
    not handled. *)
Lemma signal_stops_and_releases_witness :
  let a := newly_built (5 * time.Second) in
  let start := message_from 7 "/start" true "start" in
  ∃ a',
    Run a [Incoming start (at_instant 0); Signal SIGTERM;
           Incoming (message_from 8 "/help" true "help") (at_instant 1)] =
      Stopped a'
        [GetUpdatesChan {| Offset := 0; Timeout := 60 |};
         Notify [Interrupt; SIGTERM];
         Go (General_StartResponse 7);
         Println "Stopping bot..."; StopReceivingUpdates; Close;
         Println "Bot gracefully stopped!"] ∧
    receiving (bot a') = false ∧ database.closed (db a') = true.
Proof.
  intros a start.
  destruct (signal_stops_and_releases a
              [Incoming start (at_instant 0); Signal SIGTERM;
               Incoming (message_from 8 "/help" true "help") (at_instant 1)])
    as [Hstop _].
  destruct (Hstop [Incoming start (at_instant 0)]
                  [Incoming (message_from 8 "/help" true "help") (at_instant 1)]
                  SIGTERM _ _ eq_refl eq_refl) as (Hrun & Hrecv & Hclosed & _).
  eexists. split; [exact Hrun|]. split; [exact Hrecv|exact Hclosed].
Defined.

(* ===================================================================== *)
(** ** Start-up                                                           *)
(* ===================================================================== *)

(** C9.  Start-up failures are fatal before the dispatch loop.  When
    creating the bot fails, or creating the bot succeeds and connecting
    to the database fails, [New] ends the process with [log.Fatalf] and
    the line of that failure; [New] returns an application exactly when
    both succeed, and the application then holds the configuration, the
    bot with its debug flag set from the configuration, the database,
    and an empty cooldown cache.  After a fatal start-up nothing runs:
    [Run] is never started. *)
Theorem bootstrap_failure_is_fatal (NewBotAPI : string → BotAPI + error)
    (database_New : Config → database.DB + error) (c : Config) :
  (∀ err, NewBotAPI (ApiKey c) = inr err →
     New NewBotAPI database_New c = Fatalf ("Error creating bot: " +:+ err)) ∧
  (∀ b err, NewBotAPI (ApiKey c) = inl b → database_New c = inr err →
     New NewBotAPI database_New c =
       Fatalf ("Error connecting to database: " +:+ err)) ∧
  (∀ a, New NewBotAPI database_New c = Built a ↔
     ∃ b d, NewBotAPI (ApiKey c) = inl b ∧ database_New c = inl d ∧
       a = {| cfg := c;
              db := d;
              bot := {| Token := Token b; Debug := IsDebug c;
                        receiving := receiving b |};
              lastUsage := cache.New (CommandCooldown c) (5 * time.Minute) |}) ∧
  (∀ line events, New NewBotAPI database_New c = Fatalf line →
     and_then (New NewBotAPI database_New c) (λ a, Built (Run a events)) =
       Fatalf line).
Proof.
  unfold New. repeat split.
  - by intros err ->.
  - by intros b err -> ->.
  - destruct (NewBotAPI (ApiKey c)) as [b|]; [|discriminate].
    destruct (database_New c) as [d|]; [|discriminate].
    intros [= <-]. eauto.
  - by intros (b & d & -> & -> & ->).
  - by intros line events ->.
Qed.

(** A refused database connection ends the process with its line and no
    loop; with both collaborators up, [New] returns the application. *)
Lemma bootstrap_failure_is_fatal_witness :
  let c := {| ApiKey := "token"; IsDebug := true;
              CommandCooldown := 5 * time.Second |} in
  and_then (New bot_ok db_refused c)
           (λ a, Built (Run a [Signal Interrupt])) =
    Fatalf "Error connecting to database: connection refused" ∧
  New bot_unauthorized db_ok c = Fatalf "Error creating bot: Unauthorized" ∧
  ∃ a, New bot_ok db_ok c = Built a ∧ Debug (bot a) = true.
Proof.
  intros c.
  destruct (bootstrap_failure_is_fatal bot_ok db_refused c)
    as (_ & Hdb & _ & Hnever).
  destruct (bootstrap_failure_is_fatal bot_unauthorized db_ok c) as (Hbot & _).
  destruct (bootstrap_failure_is_fatal bot_ok db_ok c) as (_ & _ & Hok & _).
  split; [|split].
  - apply Hnever. exact (Hdb _ _ eq_refl eq_refl).
  - exact (Hbot _ eq_refl).
  - eexists. split; [apply Hok; eauto|reflexivity].
Defined.

(* ===================================================================== *)
(** ** The general handlers                                               *)
(* ===================================================================== *)

(** C10.  A send error is logged and goes no further.  On every
    transport and from every state of it, each of [MessageResponse],
    [StartResponse] and [HelpResponse] returns normally, having handed
    its one message to the transport once; when the transport gave an
    error the handler logs the line "Error sending message: ..." and
    does nothing else: no second attempt, no panic, and no state of the
    application is within its reach to change. *)
Theorem send_error_logged_not_propagated {T : Type}
    (transport : T → BotAPI → MessageConfig → T * option error) (t : T)
    (h : general.Handler) (chatID : Z) (message : string) :
  let run (text : string) (p : general.Prog unit) :=
    let '(t', result) := transport t (general.bot h) (NewMessage chatID text) in
    general.exec transport p t = (tt, t', replied h chatID text result) in
  run message (general.MessageResponse h chatID message) ∧
  run welcome_text (general.StartResponse h chatID) ∧
  run help_text (general.HelpResponse h chatID).
Proof.
  cbn zeta. unfold general.MessageResponse, general.StartResponse,
    general.HelpResponse, general.send, replied, welcome_text, help_text.
  repeat split; cbn;
    match goal with
    | |- context [transport t ?b ?c] => destruct (transport t b c) as [t' [e|]]
    end; reflexivity.
Qed.

(** A transport that refuses everything: one attempt, one logged line,
    and the handler has returned. *)
Example refused_send_is_logged :
  general.exec (refusing "Forbidden: bot was blocked by the user")
    (general.StartResponse (general.New (cfg (newly_built 0)) (bot (newly_built 0))) 7)
    0%nat =
  (tt, 1%nat,
   [general.Sent (bot (newly_built 0)) (NewMessage 7 welcome_text)
      (Some "Forbidden: bot was blocked by the user");
    general.Logged
      "Error sending message: Forbidden: bot was blocked by the user"]).
Proof. reflexivity. Qed.

(* ===================================================================== *)
(** ** The text of the cooldown notice, and the scenario                  *)
(* ===================================================================== *)

(** [round_half_even] is a nearest integer of [n * 2^e]: it is off by at
    most one half. *)
Lemma round_half_even_nearest (n e : Z) :
  e < 0 →
  2 * Z.abs (fmt.round_half_even n e * 2 ^ (- e) - n) <= 2 ^ (- e).
Proof.
  intros He. unfold fmt.round_half_even.
  destruct (Z.leb_spec 0 e); [lia|].
  assert (0 < 2 ^ (- e)) as Hd by (apply Z.pow_pos_nonneg; lia).
  set (d := 2 ^ (- e)) in *.
  pose proof (Z.div_mod n d ltac:(lia)) as Hdiv.
  pose proof (Z.mod_pos_bound n d Hd) as Hmod.
  set (q := n / d) in *. set (r := n mod d) in *. clearbody q r d.
  destruct (Z.ltb_spec (2 * r) d); [subst n; lia|].
  destruct (Z.ltb_spec d (2 * r)); [subst n; lia|].
  destruct (Z.even q); subst n; lia.
Qed.

(** [%.1f] rounds the binary value, ties to even: 0.25 s reads "0.2",
    0.75 s reads "0.8", and 2.96 s reads "3.0". *)
Example cooldownText_rounding :
  cooldownText 250000000 = "Command on cooldown for 0.2 sec" ∧
  cooldownText 750000000 = "Command on cooldown for 0.8 sec" ∧
  cooldownText 2960000000 = "Command on cooldown for 3.0 sec".
Proof. repeat split; by vm_compute. Qed.

(** The scenario of the specification, end to end: with a cooldown of
    5 s, chat 7 sends a command at [t = 0] (let through), at [t = 2]
    (held back, 3.0 s left) and at [t = 6] (let through). *)
Example scenario_cooldown_5s :
  let help := message_from 7 "/help" true "help" in
  let a' := served (served (start (newly_built (5 * time.Second))) 7 (at_instant 0))
                   7 (at_instant (6 * time.Second)) in
  Run (newly_built (5 * time.Second))
      [Incoming help (at_instant 0);
       Incoming help (at_instant (2 * time.Second));
       Incoming help (at_instant (6 * time.Second))] =
    Waiting a'
      [GetUpdatesChan {| Offset := 0; Timeout := 60 |};
       Notify [Interrupt; SIGTERM];
       Go (General_HelpResponse 7);
       Go (General_MessageResponse 7 "Command on cooldown for 3.0 sec");
       Go (General_HelpResponse 7)].
Proof. by vm_compute. Qed.

(* ===================================================================== *)
(** ** Further properties of [handleUpdate]                               *)
(* ===================================================================== *)

Lemma target_route (m : Message) (chatID : Z) :
  Message_Chat m = Some {| Chat_ID := chatID |} →
  target (route m chatID) = Some chatID.
Proof.
  intros Hc. unfold route.
  repeat match goal with
         | |- context [if ?b then _ else _] => destruct b
         end; cbn; rewrite ?Hc; reflexivity.
Qed.

(** What [handleUpdate] does on an update of a chat, in one place: it
    returns, with one call to the chat; the state is the one before or
    [served]. *)
Lemma handleUpdate_cases (a : App) (update : Update) (chatID : Z) (k : Clock) :
  Message_Chat_ID update = Some chatID →
  ∃ a' g,
    handleUpdate a update k = Returned a' [g] ∧ target g = Some chatID ∧
    (a' = a ∨ a' = served a chatID k).
Proof.
  intros Hid. unfold handleUpdate. rewrite Hid.
  destruct (cooldownWait a (fmt.Sprint chatID) k).
  - eexists _, _. split; [reflexivity|]. split; [reflexivity|]. by left.
  - apply Message_Chat_ID_Some in Hid as (m & -> & Hc).
    destruct (Message_IsCommand m); cbn.
    + eexists _, _. split; [reflexivity|]. split; [by apply target_route|].
      by right.
    + eexists _, _. split; [reflexivity|]. split; [reflexivity|]. by right.
Qed.

Lemma handleUpdate_returned (a a' : App) (update : Update) (k : Clock)
    (started : list GoCall) :
  handleUpdate a update k = Returned a' started →
  ∃ chatID g,
    Message_Chat_ID update = Some chatID ∧ started = [g] ∧
    target g = Some chatID ∧ (a' = a ∨ a' = served a chatID k).
Proof.
  intros Hrun.
  destruct (Message_Chat_ID update) as [chatID|] eqn:Hid.
  - destruct (handleUpdate_cases a update chatID k Hid) as (a1 & g & Hrun' & Ht & Ha).
    rewrite Hrun' in Hrun. injection Hrun as <- <-. eauto 10.
  - unfold handleUpdate in Hrun. by rewrite Hid in Hrun.
Qed.

Lemma served_other (a : App) (chatID chatID' : Z) (k : Clock) :
  chatID' ≠ chatID →
  cache.items (lastUsage (served a chatID k)) !! fmt.Sprint chatID' =
  cache.items (lastUsage a) !! fmt.Sprint chatID'.
Proof.
  intros Hne. unfold served, with_lastUsage. cbn [lastUsage].
  apply items_Set_other. intros Heq. apply Hne. symmetry. by apply Sprint_inj.
Qed.

Lemma Get_items (c c' : cache.Cache) (key : string) (t : time.Time) :
  cache.items c !! key = cache.items c' !! key →
  cache.Get c key t = cache.Get c' key t.
Proof. intros Heq. unfold cache.Get. by rewrite Heq. Qed.

(** X1.  An update changes nothing but its own chat's last-served time:
    the configuration, the database and the bot are the ones before, and
    for every other chat the recorded item, and so what [Get] reads of
    it at any time, is unchanged.  Chats are told apart by the decimal
    key [fmt.Sprint] makes of their id. *)
Theorem update_touches_only_its_chat (a a' : App) (update : Update) (k : Clock)
    (started : list GoCall) (chatID : Z) :
  handleUpdate a update k = Returned a' started →
  Message_Chat_ID update = Some chatID →
  cfg a' = cfg a ∧ db a' = db a ∧ bot a' = bot a ∧
  ∀ chatID', chatID' ≠ chatID →
    cache.items (lastUsage a') !! fmt.Sprint chatID' =
      cache.items (lastUsage a) !! fmt.Sprint chatID' ∧
    ∀ t, cache.Get (lastUsage a') (fmt.Sprint chatID') t =
         cache.Get (lastUsage a) (fmt.Sprint chatID') t.
Proof.
  intros Hrun Hid.
  destruct (handleUpdate_returned a a' update k started Hrun)
    as (c & g & Hid' & _ & _ & Ha).
  rewrite Hid in Hid'. injection Hid' as <-.
  destruct Ha as [->| ->]; repeat split; auto.
  - by apply served_other.
  - intros t. apply Get_items. by apply served_other.
Qed.

(** Chat 8 writes while chat 7 is on cooldown: chat 7's last-served time
    is still [t = 0]. *)
Lemma update_touches_only_its_chat_witness :
  let a1 := served (newly_built (5 * time.Second)) 7 (at_instant 0) in
  ∃ a',
    handleUpdate a1 (message_from 8 "/sub" true "sub") (at_instant time.Second) =
      Returned a' [Image_CreateSubscription
                     {| Message_Chat := Some {| Chat_ID := 8 |};
                        Message_Text := "/sub";
                        Message_IsCommand := true;
                        Message_Command := "sub" |}] ∧
    cache.Get (lastUsage a') (fmt.Sprint 7) time.Second = Some 0.
Proof.
  intros a1.
  assert (handleUpdate a1 (message_from 8 "/sub" true "sub")
            (at_instant time.Second) =
          Returned (served a1 8 (at_instant time.Second))
            [Image_CreateSubscription
               {| Message_Chat := Some {| Chat_ID := 8 |};
                  Message_Text := "/sub";
                  Message_IsCommand := true;
                  Message_Command := "sub" |}]) as Hrun by (by vm_compute).
  destruct (update_touches_only_its_chat a1 _ _ _ _ 8 Hrun eq_refl)
    as (_ & _ & _ & Hother).
  eexists. split; [exact Hrun|].
  destruct (Hother 7 ltac:(discriminate)) as [_ Hget]. rewrite Hget.
  by vm_compute.
Defined.

(** X2.  An update that carries a message with a chat is always
    answered, once, and to its sender: [handleUpdate] returns and starts
    exactly one call, and the call answers the chat the update came
    from. *)
Theorem one_call_to_the_sender (a : App) (update : Update) (chatID : Z)
    (k : Clock) :
  Message_Chat_ID update = Some chatID →
  ∃ a' g, handleUpdate a update k = Returned a' [g] ∧ target g = Some chatID.
Proof.
  intros Hid.
  destruct (handleUpdate_cases a update chatID k Hid) as (a' & g & ? & ? & _).
  eauto.
Qed.

Lemma one_call_to_the_sender_witness :
  ∃ a' g,
    handleUpdate (newly_built (5 * time.Second))
                 (message_from (-1001) "/unsub" true "unsub") (at_instant 0) =
      Returned a' [g] ∧
    target g = Some (-1001).
Proof.
  exact (one_call_to_the_sender (newly_built (5 * time.Second))
           (message_from (-1001) "/unsub" true "unsub") (-1001) (at_instant 0)
           eq_refl).
Defined.




(** X4.  The wait a denied update is told is positive and never more
    than the cooldown (for a non-negative cooldown and a recorded time
    that is not in the future); so nothing is ever denied when the
    cooldown is not positive. *)
Theorem wait_is_within_cooldown (a : App) (key : string) (k : Clock)
    (w : time.Duration) :
  0 <= cooldown a <= int64.max →
  (∀ T, cache.Get (lastUsage a) key (tGet k) = Some T → T <= tSince k) →
  cooldownWait a key k = Some w →
  0 < w <= cooldown a.
Proof.
  intros Hcd Hpast Hwait.
  destruct (cache.Get (lastUsage a) key (tGet k)) as [T|] eqn:Hget.
  - rewrite (cooldownWait_found a key k T Hcd Hget (Hpast T eq_refl)) in Hwait.
    pose proof (Since_past (tSince k) T (Hpast T eq_refl)).
    destruct (Z.ltb_spec 0 (cooldown a - time.Since (tSince k) T)); [|discriminate].
    injection Hwait as <-. lia.
  - by rewrite (cooldownWait_absent a key k Hget) in Hwait.
Qed.

Lemma wait_is_within_cooldown_witness :
  0 < 3 * time.Second <= 5 * time.Second.
Proof.
  refine (wait_is_within_cooldown
            (served (newly_built (5 * time.Second)) 7 (at_instant 0))
            (fmt.Sprint 7) (at_instant (2 * time.Second)) (3 * time.Second) _ _ _).
  - split; by vm_compute.
  - intros T Hget.
    assert (cache.Get
              (lastUsage (served (newly_built (5 * time.Second)) 7 (at_instant 0)))
              (fmt.Sprint 7) (tGet (at_instant (2 * time.Second))) = Some 0)
      as Hlast by (by vm_compute).
    rewrite Hlast in Hget. injection Hget as <-. by vm_compute.
  - by vm_compute.
Defined.

(** X5.  A cooldown of zero switches the gate off: whatever is recorded
    for a chat (at a time not in the future), its update is let through. *)
Theorem zero_cooldown_never_denies (a : App) (key : string) (k : Clock) :
  cooldown a = 0 →
  (∀ T, cache.Get (lastUsage a) key (tGet k) = Some T → T <= tSince k) →
  cooldownWait a key k = None.
Proof.
  intros Hzero Hpast.
  destruct (cache.Get (lastUsage a) key (tGet k)) as [T|] eqn:Hget;
    [|by apply cooldownWait_absent].
  rewrite (cooldownWait_found a key k T); [|rewrite Hzero; by vm_compute|exact Hget|auto].
  pose proof (Since_past (tSince k) T (Hpast T eq_refl)).
  destruct (Z.ltb_spec 0 (cooldown a - time.Since (tSince k) T)); [lia|reflexivity].
Qed.

(** A cooldown of zero, chat 7 served at [t = 0]: its update at the same
    instant is let through. *)
Lemma zero_cooldown_never_denies_witness :
  cooldownWait (served (newly_built 0) 7 (at_instant 0)) (fmt.Sprint 7)
               (at_instant 0) = None.
Proof.
  apply zero_cooldown_never_denies; [reflexivity|].
  intros T Hget.
  assert (cache.Get (lastUsage (served (newly_built 0) 7 (at_instant 0)))
            (fmt.Sprint 7) (tGet (at_instant 0)) = Some 0) as Hlast
    by (by vm_compute).
  rewrite Hlast in Hget. injection Hget as <-. by vm_compute.
Defined.

(* ===================================================================== *)
(** ** Further properties of the loop                                     *)
(* ===================================================================== *)

(** While the loop handles updates it only starts calls, one per update,
    and leaves configuration, database and bot alone. *)
Lemma loop_calls (events : list Event) :
  ∀ (a a' : App) (trace trace' : list Effect),
  loop a events trace = Waiting a' trace' →
  ∃ calls,
    trace' = trace ++ map Go calls ∧ length calls = length events ∧
    cfg a' = cfg a ∧ db a' = db a ∧ bot a' = bot a.
Proof.
  induction events as [|[update k|s] events IH];
    intros a a' trace trace' Hloop; cbn in Hloop.
  - injection Hloop as <- <-. exists []. by rewrite app_nil_r.
  - destruct (handleUpdate a update k) as [|a1 started] eqn:Hstep; [discriminate|].
    destruct (handleUpdate_returned a a1 update k started Hstep)
      as (c & g & _ & -> & _ & Ha).
    destruct (IH a1 a' _ _ Hloop) as (calls & -> & Hlen & Hcfg & Hdb & Hbot).
    exists (g :: calls). cbn. rewrite <- app_assoc. cbn.
    split; [reflexivity|]. split; [by rewrite Hlen|].
    destruct Ha as [->| ->]; auto.
  - discriminate.
Qed.

(** Updates of other chats leave a chat's item as it is. *)
Lemma loop_frame (events : list Event) (chatID : Z) :
  ∀ (a a' : App) (trace trace' : list Effect),
  loop a events trace = Waiting a' trace' →
  Forall (λ e, chat_of e ≠ Some chatID) events →
  cache.items (lastUsage a') !! fmt.Sprint chatID =
    cache.items (lastUsage a) !! fmt.Sprint chatID.
Proof.
  induction events as [|[update k|s] events IH];
    intros a a' trace trace' Hloop Hall; cbn in Hloop.
  - by injection Hloop as <- _.
  - apply Forall_cons in Hall as [Hne Hall]. cbn in Hne.
    destruct (handleUpdate a update k) as [|a1 started] eqn:Hstep; [discriminate|].
    destruct (handleUpdate_returned a a1 update k started Hstep)
      as (c & g & Hid & _ & _ & Ha).
    rewrite (IH a1 a' _ _ Hloop Hall).
    destruct Ha as [->| ->]; [reflexivity|].
    apply served_other. intros ->. by rewrite Hid in Hne.
  - discriminate.
Qed.

(** One more update after those the loop has handled. *)
Lemma loop_snoc (events : list Event) :
  ∀ (a a1 a2 : App) (trace trace1 : list Effect) (update : Update) (k : Clock)
    (started : list GoCall),
  loop a events trace = Waiting a1 trace1 →
  handleUpdate a1 update k = Returned a2 started →
  loop a (events ++ [Incoming update k]) trace = Waiting a2 (trace1 ++ map Go started).
Proof.
  induction events as [|[u0 k0|s] events IH];
    intros a a1 a2 trace trace1 update k started Hloop Hstep; cbn in *.
  - injection Hloop as <- <-. by rewrite Hstep.
  - destruct (handleUpdate a u0 k0); [discriminate|]. by eapply IH.
  - discriminate.
Qed.

Lemma loop_panic (events : list Event) :
  ∀ (a a1 : App) (trace trace1 : list Effect) (update : Update) (k : Clock)
    (after : list Event),
  loop a events trace = Waiting a1 trace1 →
  handleUpdate a1 update k = Panicked →
  loop a (events ++ Incoming update k :: after) trace = Crashed trace1.
Proof.
  induction events as [|[u0 k0|s] events IH];
    intros a a1 trace trace1 update k after Hloop Hstep; cbn in *.
  - injection Hloop as <- <-. by rewrite Hstep.
  - destruct (handleUpdate a u0 k0); [discriminate|]. by eapply IH.
  - discriminate.
Qed.

(** X6.  Start-up clears every cooldown, and a chat stays clear until it
    writes.  In an application [New] returned, after any updates of
    other chats, the first update of a chat is let through: its time is
    recorded and its one call started. *)
Theorem first_update_of_a_chat_is_served (NewBotAPI : string → BotAPI + error)
    (database_New : Config → database.DB + error) (c : Config)
    (a a1 : App) (events : list Event) (trace : list Effect)
    (update : Update) (chatID : Z) (k : Clock) :
  New NewBotAPI database_New c = Built a →
  Run a events = Waiting a1 trace →
  Forall (λ e, chat_of e ≠ Some chatID) events →
  Message_Chat_ID update = Some chatID →
  cooldownWait a1 (fmt.Sprint chatID) k = None ∧
  ∃ g, Run a (events ++ [Incoming update k]) =
         Waiting (served a1 chatID k) (trace ++ [Go g]) ∧
       target g = Some chatID.
Proof.
  intros Hnew Hrun Hall Hid.
  destruct (New_wired NewBotAPI database_New c a Hnew) as (_ & _ & Hempty).
  unfold Run in *.
  assert (cooldownWait a1 (fmt.Sprint chatID) k = None) as Hopen.
  { apply cooldownWait_absent. unfold cache.Get.
    rewrite (loop_frame events chatID _ _ _ _ Hrun Hall). cbn.
    by rewrite Hempty, lookup_empty. }
  split; [exact Hopen|].
  destruct (handleUpdate_cases a1 update chatID k Hid) as (a2 & g & Hstep & Ht & _).
  exists g. split; [|exact Ht].
  apply Message_Chat_ID_Some in Hid as (m & Hm & Hc).
  assert (a2 = served a1 chatID k) as ->.
  { rewrite (handleUpdate_admitted a1 update m chatID k Hm Hc Hopen) in Hstep.
    by injection Hstep as <- _. }
  exact (loop_snoc events _ _ _ _ _ _ _ _ Hrun Hstep).
Qed.

(** After start-up chat 8 writes; chat 7's first command is then let
    through. *)
Lemma first_update_of_a_chat_is_served_witness :
  let c := {| ApiKey := "token"; IsDebug := false;
              CommandCooldown := 5 * time.Second |} in
  ∃ a a1 trace g,
    New bot_ok db_ok c = Built a ∧
    Run a [Incoming (message_from 8 "/help" true "help") (at_instant 0);
           Incoming (message_from 7 "/help" true "help") (at_instant 0)] =
      Waiting (served a1 7 (at_instant 0)) (trace ++ [Go g]) ∧
    target g = Some 7.
Proof.
  intros c.
  destruct (first_update_of_a_chat_is_served bot_ok db_ok c
              _ _ [Incoming (message_from 8 "/help" true "help") (at_instant 0)]
              _ (message_from 7 "/help" true "help") 7 (at_instant 0)
              eq_refl eq_refl)
    as (_ & g & Hrun & Ht).
  - repeat constructor. by vm_compute.
  - reflexivity.
  - eexists _, _, _, g. split; [reflexivity|]. split; [exact Hrun|exact Ht].
Defined.

(** X7.  A panic releases nothing.  When an update without a message
    arrives after updates the loop has handled, [Run] ends in the panic
    with the trace it had: neither [StopReceivingUpdates] nor the
    database's [Close] has been or will be performed, and the events
    after it are never looked at. *)
Theorem crash_skips_release (a a1 : App) (before after : list Event)
    (trace : list Effect) (update : Update) (k : Clock) :
  Run a before = Waiting a1 trace →
  Update_Message update = None →
  Run a (before ++ Incoming update k :: after) = Crashed trace ∧
  (Close ∉ trace) ∧ (StopReceivingUpdates ∉ trace).
Proof.
  intros Hrun Hnil. unfold Run in *. split.
  - apply (loop_panic before _ a1); [exact Hrun|].
    unfold handleUpdate, Message_Chat_ID. by rewrite Hnil.
  - destruct (loop_calls before _ _ _ _ Hrun) as (calls & -> & _).
    split; intros Hin; apply elem_of_app in Hin as [Hin|Hin].
    + repeat (apply elem_of_cons in Hin as [?|Hin]; [discriminate|]).
      by apply elem_of_nil in Hin.
    + apply list_elem_of_fmap in Hin as (g & ? & _). discriminate.
    + repeat (apply elem_of_cons in Hin as [?|Hin]; [discriminate|]).
      by apply elem_of_nil in Hin.
    + apply list_elem_of_fmap in Hin as (g & ? & _). discriminate.
Qed.

(** A command, then an update without a message, then SIGTERM: the
    process ends in the panic, the signal is never served. *)
Lemma crash_skips_release_witness :
  let a := newly_built (5 * time.Second) in
  Run a [Incoming (message_from 7 "/start" true "start") (at_instant 0);
         Incoming no_message (at_instant 1); Signal SIGTERM] =
    Crashed [GetUpdatesChan {| Offset := 0; Timeout := 60 |};
             Notify [Interrupt; SIGTERM]; Go (General_StartResponse 7)].
Proof.
  intros a.
  exact (proj1 (crash_skips_release a _
                  [Incoming (message_from 7 "/start" true "start") (at_instant 0)]
                  [Signal SIGTERM] _ no_message (at_instant 1) eq_refl eq_refl)).
Defined.

(** X8.  While it handles updates the loop starts exactly one call per
    update, in the order of arrival and after its two set-up steps, and
    touches neither the configuration nor the database nor the bot: all
    access to storage is left to the calls it starts. *)
Theorem loop_starts_one_call_per_update (a a1 : App) (events : list Event)
    (trace : list Effect) :
  Run a events = Waiting a1 trace →
  ∃ calls,
    trace = [GetUpdatesChan {| Offset := 0; Timeout := 60 |};
             Notify [Interrupt; SIGTERM]] ++ map Go calls ∧
    length calls = length events ∧
    Forall2 (λ e g, chat_of e = target g) events calls ∧
    cfg a1 = cfg a ∧ db a1 = db a ∧ bot a1 = bot (start a).
Proof.
  intros Hrun. unfold Run in Hrun.
  destruct (loop_calls events _ _ _ _ Hrun) as (calls & -> & Hlen & Hcfg & Hdb & Hbot).
  exists calls. repeat split; auto.
  clear Hlen Hcfg Hdb Hbot. revert Hrun. generalize (start a).
  generalize [GetUpdatesChan {| Offset := Offset (NewUpdate 0); Timeout := 60 |};
              Notify [Interrupt; SIGTERM]].
  revert calls.
  induction events as [|[u0 k0|s] events IH]; intros calls trace0 a0 Hrun;
    cbn in Hrun.
  - injection Hrun as _ Heq.
    assert (map Go calls = []) as Hnil
      by (apply (app_inv_head trace0); by rewrite app_nil_r).
    destruct calls; [constructor|discriminate].
  - destruct (handleUpdate a0 u0 k0) as [|a2 started] eqn:Hstep; [discriminate|].
    destruct (handleUpdate_returned a0 a2 u0 k0 started Hstep)
      as (c & g & Hid & -> & Ht & _).
    destruct (loop_calls events _ _ _ _ Hrun) as (rest & Heq & _).
    assert (calls = g :: rest) as ->.
    { cbn in Heq. rewrite <- app_assoc in Heq. apply app_inv_head in Heq.
      change (map Go calls = map Go (g :: rest)) in Heq.
      revert Heq. generalize (g :: rest). clear.
      induction calls as [|x xs IHxs]; intros [|y ys] Heq; try discriminate.
      - reflexivity.
      - cbn in Heq. injection Heq as -> Heq. f_equal. by apply IHxs. }
    constructor; [cbn; by rewrite Hid, Ht|].
    apply (IH rest (trace0 ++ map Go [g]) a2).
    rewrite Hrun. cbn. by rewrite <- app_assoc.
  - discriminate.
Qed.

Lemma loop_starts_one_call_per_update_witness :
  ∃ calls,
    length calls = 2%nat ∧
    Forall2 (λ e g, chat_of e = target g)
      [Incoming (message_from 7 "/sub" true "sub") (at_instant 0);
       Incoming (message_from 7 "/sub" true "sub") (at_instant 1)] calls.
Proof.
  destruct (loop_starts_one_call_per_update (newly_built (5 * time.Second))
              (served (start (newly_built (5 * time.Second))) 7 (at_instant 0))
              [Incoming (message_from 7 "/sub" true "sub") (at_instant 0);
               Incoming (message_from 7 "/sub" true "sub") (at_instant 1)]
              _ ltac:(by vm_compute))
    as (calls & _ & Hlen & Hall & _).
  exists calls. split; [exact Hlen|exact Hall].
Defined.

(* ===================================================================== *)
(** ** Chats do not interfere                                             *)
(* ===================================================================== *)

Lemma agree_refl (chatID : Z) (a : App) : agree chatID a a.
Proof. by repeat split. Qed.

Lemma cooldownWait_agree (chatID : Z) (a b : App) (k : Clock) :
  agree chatID a b →
  cooldownWait a (fmt.Sprint chatID) k = cooldownWait b (fmt.Sprint chatID) k.
Proof.
  intros (Hcfg & _ & Hit). unfold cooldownWait, cache.Get. by rewrite Hcfg, Hit.
Qed.

Lemma served_agree (chatID : Z) (a b : App) (k : Clock) :
  agree chatID a b → agree chatID (served a chatID k) (served b chatID k).
Proof.
  intros (Hcfg & Hde & Hit). unfold agree, served, with_lastUsage, cache.Set_. cbn.
  rewrite !lookup_insert_eq, Hde. auto.
Qed.

(** An update of the chat does the same in two applications that agree
    on the chat. *)
Lemma handleUpdate_agree (chatID : Z) (a b a' : App) (update : Update)
    (k : Clock) (started : list GoCall) :
  agree chatID a b →
  Message_Chat_ID update = Some chatID →
  handleUpdate a update k = Returned a' started →
  ∃ b', handleUpdate b update k = Returned b' started ∧ agree chatID a' b'.
Proof.
  intros Hag Hid Hrun. unfold handleUpdate in *. rewrite Hid in *.
  rewrite <- (cooldownWait_agree chatID a b k Hag).
  destruct (cooldownWait a (fmt.Sprint chatID) k).
  - injection Hrun as <- <-. eauto.
  - fold (served a chatID k) in Hrun. fold (served b chatID k).
    pose proof (served_agree chatID a b k Hag).
    destruct (Update_Message update) as [m|];
      [destruct (negb (Message_IsCommand m))|]; injection Hrun as <- <-; eauto.
Qed.

(** An update of another chat keeps the agreement. *)
Lemma handleUpdate_other_agree (chatID c : Z) (a b a' : App) (update : Update)
    (k : Clock) (started : list GoCall) :
  agree chatID a b →
  Message_Chat_ID update = Some c → c ≠ chatID →
  handleUpdate a update k = Returned a' started →
  agree chatID a' b.
Proof.
  intros (Hcfg & Hde & Hit) Hid Hne Hrun.
  destruct (handleUpdate_returned a a' update k started Hrun)
    as (c' & g & Hid' & _ & _ & Ha).
  rewrite Hid in Hid'. injection Hid' as <-.
  destruct Ha as [->| ->]; [by repeat split|].
  repeat split; auto. rewrite <- Hit. by apply served_other.
Qed.

Lemma loop_agree (chatID : Z) (events : list Event) :
  ∀ (a b a1 : App) (tra trb tr1 : list Effect),
  agree chatID a b →
  loop a events tra = Waiting a1 tr1 →
  ∃ b1 calls,
    tr1 = tra ++ map Go calls ∧
    loop b (filter (λ e, chat_of e = Some chatID) events) trb =
      Waiting b1 (trb ++ map Go (filter (λ g, target g = Some chatID) calls)) ∧
    agree chatID a1 b1.
Proof.
  induction events as [|[update k|s] events IH];
    intros a b a1 tra trb tr1 Hag Hloop; cbn in Hloop.
  - injection Hloop as <- <-. exists b, []. cbn. by rewrite !app_nil_r.
  - destruct (handleUpdate a update k) as [|a' started] eqn:Hstep; [discriminate|].
    destruct (handleUpdate_returned a a' update k started Hstep)
      as (c & g & Hid & -> & Ht & _).
    destruct (decide (c = chatID)) as [->|Hne].
    + destruct (handleUpdate_agree chatID a b a' update k [g] Hag Hid Hstep)
        as (b' & Hstepb & Hag').
      destruct (IH a' b' a1 _ (trb ++ map Go [g]) _ Hag' Hloop)
        as (b1 & calls & -> & Hloopb & Hag1).
      exists b1, (g :: calls). split; [cbn; by rewrite <- app_assoc|].
      split; [|exact Hag1].
      rewrite filter_cons_True by (cbn; exact Hid).
      cbn [loop]. rewrite Hstepb, Hloopb.
      rewrite (filter_cons_True _ g) by exact Ht.
      cbn. by rewrite <- app_assoc.
    + pose proof (handleUpdate_other_agree chatID c a b a' update k [g]
                    Hag Hid Hne Hstep) as Hag'.
      destruct (IH a' b a1 _ trb _ Hag' Hloop) as (b1 & calls & -> & Hloopb & Hag1).
      exists b1, (g :: calls). split; [cbn; by rewrite <- app_assoc|].
      split; [|exact Hag1].
      rewrite filter_cons_False by (cbn; rewrite Hid; congruence).
      rewrite (filter_cons_False _ g) by (rewrite Ht; congruence).
      exact Hloopb.
  - discriminate.
Qed.

Lemma started_calls_map_Go (calls : list GoCall) :
  started_calls (map Go calls) = calls.
Proof. induction calls as [|g calls IH]; cbn; [reflexivity|]. by f_equal. Qed.

(** X9.  Chats do not interfere.  What the loop does for one chat is
    what it would do had only that chat's updates arrived: the calls it
    starts for the chat are the same, in the same order, and the chat's
    recorded item at the end is the same. *)
Theorem chats_do_not_interfere (a a1 : App) (events : list Event)
    (trace : list Effect) (chatID : Z) :
  Run a events = Waiting a1 trace →
  ∃ a2 trace2,
    Run a (filter (λ e, chat_of e = Some chatID) events) = Waiting a2 trace2 ∧
    started_calls trace2 =
      filter (λ g, target g = Some chatID) (started_calls trace) ∧
    ∀ t, cache.Get (lastUsage a2) (fmt.Sprint chatID) t =
         cache.Get (lastUsage a1) (fmt.Sprint chatID) t.
Proof.
  intros Hrun. unfold Run in *.
  set (init := [GetUpdatesChan {| Offset := Offset (NewUpdate 0); Timeout := 60 |};
                Notify [Interrupt; SIGTERM]]) in *.
  destruct (loop_agree chatID events (start a) (start a) a1 init init trace
              (agree_refl _ _) Hrun) as (a2 & calls & -> & Hloop & _ & _ & Hit).
  eexists _, _. split; [exact Hloop|]. split.
  - unfold started_calls at 1 2. rewrite !omap_app. fold started_calls.
    by rewrite !started_calls_map_Go.
  - intros t. by apply Get_items.
Qed.

(** Chat 8 writing in between changes nothing for chat 7: served, then
    held back with 3.0 s to wait. *)
Lemma chats_do_not_interfere_witness :
  let seven t := Incoming (message_from 7 "/help" true "help") (at_instant t) in
  let eight t := Incoming (message_from 8 "hello" false "") (at_instant t) in
  ∃ a2 trace2,
    Run (newly_built (5 * time.Second)) [seven 0; seven (2 * time.Second)] =
      Waiting a2 trace2 ∧
    started_calls trace2 =
      [General_HelpResponse 7;
       General_MessageResponse 7 "Command on cooldown for 3.0 sec"].
Proof.
  intros seven eight.
  destruct (chats_do_not_interfere (newly_built (5 * time.Second))
              (served (served (start (newly_built (5 * time.Second))) 7 (at_instant 0))
                      8 (at_instant time.Second))
              [seven 0; eight time.Second; seven (2 * time.Second)]
              [GetUpdatesChan {| Offset := 0; Timeout := 60 |};
               Notify [Interrupt; SIGTERM];
               Go (General_HelpResponse 7);
               Go (General_MessageResponse 8
                     "I can only handle listed commands in this chat!");
               Go (General_MessageResponse 7 "Command on cooldown for 3.0 sec")]
              7 ltac:(by vm_compute))
    as (a2 & trace2 & Hrun & Hcalls & _).
  exists a2, trace2. split; [exact Hrun|]. rewrite Hcalls. by vm_compute.
Defined.

(* ===================================================================== *)
(** ** What reaches the image handlers, and what the help text lists      *)
(* ===================================================================== *)

(** The command token behind each call the router can start. *)
Lemma route_inv (m : Message) (chatID : Z) :
  (Message_Command m = "start" ∧ route m chatID = General_StartResponse chatID) ∨
  (Message_Command m = "peepo" ∧ route m chatID = Image_GetImage m) ∨
  (Message_Command m = "sub" ∧ route m chatID = Image_CreateSubscription m) ∨
  (Message_Command m = "unsub" ∧ route m chatID = Image_DeleteSubscription m) ∨
  (Message_Command m = "sub_info" ∧ route m chatID = Image_GetSubscription m) ∨
  (Message_Command m = "help" ∧ route m chatID = General_HelpResponse chatID) ∨
  route m chatID = General_MessageResponse chatID "Unknown command".
Proof.
  unfold route.
  repeat match goal with
         | |- context [String.eqb ?x ?y] =>
             destruct (String.eqb_spec x y) as [->|?]; [tauto|]
         end.
  tauto.
Qed.

(** X10.  The image handlers, the only calls that reach storage, are
    started by nothing but their own command: when [handleUpdate] starts
    [GetImage], [CreateSubscription], [DeleteSubscription] or
    [GetSubscription], the update passed the cooldown gate, its message
    is a command with the token [peepo], [sub], [unsub] or [sub_info]
    respectively, and the handler is given that very message.  A denied
    update, a plain text and an unknown command never reach them. *)
Theorem image_handlers_need_their_command (a a' : App) (update : Update)
    (k : Clock) (started : list GoCall) (m : Message) :
  handleUpdate a update k = Returned a' started →
  let by_command (token : string) :=
    Update_Message update = Some m ∧ Message_IsCommand m = true ∧
    Message_Command m = token ∧
    ∃ chatID, Message_Chat_ID update = Some chatID ∧
              cooldownWait a (fmt.Sprint chatID) k = None in
  (Image_GetImage m ∈ started → by_command "peepo") ∧
  (Image_CreateSubscription m ∈ started → by_command "sub") ∧
  (Image_DeleteSubscription m ∈ started → by_command "unsub") ∧
  (Image_GetSubscription m ∈ started → by_command "sub_info").
Proof.
  intros Hrun by_command. subst by_command. cbv beta. unfold handleUpdate in Hrun.
  destruct (Message_Chat_ID update) as [chatID|] eqn:Hid; [|discriminate].
  destruct (cooldownWait a (fmt.Sprint chatID) k) eqn:Hwait.
  { injection Hrun as _ <-.
    split; [|split; [|split]]; intros Hin;
      apply list_elem_of_singleton in Hin; discriminate. }
  destruct (Update_Message update) as [m0|] eqn:Hm.
  2:{ injection Hrun as _ <-.
      split; [|split; [|split]]; intros Hin; by apply elem_of_nil in Hin. }
  destruct (Message_IsCommand m0) eqn:Hcmd; cbn in Hrun.
  2:{ injection Hrun as _ <-.
      split; [|split; [|split]]; intros Hin;
        apply list_elem_of_singleton in Hin; discriminate. }
  injection Hrun as _ <-.
  split; [|split; [|split]]; intros Hin; apply list_elem_of_singleton in Hin;
    destruct (route_inv m0 chatID)
      as [[Ht Hr]|[[Ht Hr]|[[Ht Hr]|[[Ht Hr]|[[Ht Hr]|[[Ht Hr]|Hr]]]]]];
    rewrite Hr in Hin; try discriminate; injection Hin as ->; eauto 10.
Qed.

Lemma image_handlers_need_their_command_witness :
  let m := {| Message_Chat := Some {| Chat_ID := 7 |}; Message_Text := "/unsub";
              Message_IsCommand := true; Message_Command := "unsub" |} in
  Message_Command m = "unsub" ∧
  ∃ chatID, cooldownWait (newly_built (5 * time.Second)) (fmt.Sprint chatID)
              (at_instant 0) = None.
Proof.
  intros m.
  destruct (image_handlers_need_their_command (newly_built (5 * time.Second))
              (served (newly_built (5 * time.Second)) 7 (at_instant 0))
              (message_from 7 "/unsub" true "unsub") (at_instant 0)
              [Image_DeleteSubscription m] m eq_refl)
    as (_ & _ & Hunsub & _).
  destruct Hunsub as (_ & _ & Htok & chatID & _ & Hopen).
  - by apply list_elem_of_singleton.
  - split; [exact Htok|]. by exists chatID.
Defined.

(** [reachable_gate_hypotheses] at work: after start-up and two updates
    on a ticking clock, the state is wired with the configured cooldown. *)
Lemma reachable_gate_hypotheses_witness :
  let c := {| ApiKey := "token"; IsDebug := false;
              CommandCooldown := 5 * time.Second |} in
  ∃ a a', New bot_ok db_ok c = Built a ∧
          Run a [Incoming (message_from 7 "/start" true "start") (at_instant 0);
                 Incoming (message_from 8 "/help" true "help") (at_instant 1)] =
            Waiting a' [GetUpdatesChan {| Offset := 0; Timeout := 60 |};
                        Notify [Interrupt; SIGTERM];
                        Go (General_StartResponse 7); Go (General_HelpResponse 8)] ∧
          wired a' ∧ cooldown a' = 5 * time.Second.
Proof.
  intros c.
  set (a := newly_built (5 * time.Second)).
  set (a' := served (served (start a) 7 (at_instant 0)) 8 (at_instant 1)).
  assert (Run a [Incoming (message_from 7 "/start" true "start") (at_instant 0);
                 Incoming (message_from 8 "/help" true "help") (at_instant 1)] =
            Waiting a' [GetUpdatesChan {| Offset := 0; Timeout := 60 |};
                        Notify [Interrupt; SIGTERM];
                        Go (General_StartResponse 7); Go (General_HelpResponse 8)])
    as Hrun by (by vm_compute).
  destruct (reachable_gate_hypotheses bot_ok db_ok c a a' _ _ 0 (at_instant 2)
              (fmt.Sprint 7) 0 eq_refl Hrun)
    as (Hw & Hcd & _).
  - cbn. lia.
  - exists a, a'. split; [reflexivity|]. split; [exact Hrun|].
    split; [exact Hw|exact Hcd].
Defined.

(** X12.  The help text and the router agree.  [HelpResponse] sends
    [help_text]; every command it lists on a line of its own is one the
    router dispatches to a handler, never the "Unknown command" notice;
    and every command the router knows, [start] apart, is listed. *)
Theorem help_lists_routed_commands :
  (∀ (T : Type) (transport : T → BotAPI → MessageConfig → T * option error)
     (t : T) (h : general.Handler) (chatID : Z),
     sends (general.exec transport (general.HelpResponse h chatID) t).2 =
       [NewMessage chatID help_text]) ∧
  (∀ (m : Message) (chatID : Z),
     Message_Command m ∈ listed_commands help_text →
     route m chatID ≠ General_MessageResponse chatID "Unknown command") ∧
  (∀ token, token ∈ commands → token ≠ "start" →
     token ∈ listed_commands help_text).
Proof.
  assert (listed_commands help_text = ["peepo"; "sub"; "sub_info"; "unsub"; "help"])
    as Hlisted by (by vm_compute).
  split; [|split].
  - intros T transport t h chatID.
    unfold general.HelpResponse, general.send. cbn.
    match goal with
    | |- context [transport t ?b ?c] => destruct (transport t b c) as [t' [e|]]
    end; reflexivity.
  - intros m chatID. rewrite Hlisted. intros Hin.
    repeat (apply elem_of_cons in Hin as [Htok|Hin];
            [unfold route; rewrite Htok; discriminate|]).
    by apply elem_of_nil in Hin.
  - intros token Hin Hstart. rewrite Hlisted. unfold commands in Hin.
    repeat (apply elem_of_cons in Hin as [->|Hin];
            [first [done | apply list_elem_of_In; cbn; tauto]|]).
    by apply elem_of_nil in Hin.
Qed.

Lemma help_lists_routed_commands_witness :
  route {| Message_Chat := None; Message_Text := "/sub_info";
           Message_IsCommand := true; Message_Command := "sub_info" |} 7 ≠
    General_MessageResponse 7 "Unknown command" ∧
  "unsub" ∈ listed_commands help_text.
Proof.
  destruct help_lists_routed_commands as (_ & Hrouted & Hlisted).
  split.
  - apply Hrouted. apply Hlisted; [|discriminate].
    apply list_elem_of_In. cbn. tauto.
  - apply Hlisted; [|discriminate]. apply list_elem_of_In. cbn. tauto.
Defined.
